(** * MFRC522 RFID reader over I2C: a shallow embedding of [custom.ts]

    The driver talks to the chip through three bus primitives of the
    platform ([pins.i2cWriteBuffer], [pins.i2cWriteNumber],
    [pins.i2cReadNumber]).  The embedding threads the chronological trace
    of bus transactions through every method, and takes the chip as an
    arbitrary function from the transactions seen so far to the byte it
    answers next, so that a statement quantified over the chip covers
    every sequence of register readings.

    Numbers: every value the driver handles is either a byte read from
    the bus, a small constant, or a small combination of both, so the
    32-bit bit operations of the source ([&], [|], [^], [~]) coincide
    with [Z.land], [Z.lor], [Z.lxor] and [Z.lnot] and no wrap-around is
    ever reached. *)

From Stdlib Require Import ZArith List String Ascii Bool Lia DecimalString.
Import ListNotations.
Local Open Scope Z_scope.

(** ** The bus *)

Inductive i2c_event : Type :=
| I2cWriteBuffer (address : Z) (buf : list Z)
| I2cWriteNumber (address value : Z)
| I2cReadNumber (address value : Z).

Definition trace := list i2c_event.

(** The chip and everything behind the bus: the value put on the bus when
    the host reads, given all transactions so far. *)
Definition device := trace -> Z.

(** [NumberFormat.UInt8BE] and the cells of a [Buffer] hold one unsigned
    byte. *)
Definition uint8 (v : Z) : Z := v mod 256.

(** Methods run in a state monad over the trace. *)
Definition io (A : Type) : Type := trace -> A * trace.

Definition ret {A : Type} (a : A) : io A := fun t => (a, t).

Definition bind {A B : Type} (m : io A) (f : A -> io B) : io B :=
  fun t => let (a, t') := m t in f a t'.

Declare Scope io_scope.
Delimit Scope io_scope with io.
Notation "x <- m ;; k" := (bind m (fun x => k))
  (at level 61, m at next level, right associativity) : io_scope.
Notation "' p <- m ;; k" := (bind m (fun x => let 'p := x in k))
  (at level 61, p pattern, m at next level, right associativity) : io_scope.
Notation "m ;; k" := (bind m (fun _ => k))
  (at level 61, right associativity) : io_scope.
Local Open Scope io_scope.

(** JavaScript truthiness of a number used as a condition. *)
Definition truthy (v : Z) : bool := negb (v =? 0).

(** ** Constants of [class MFRC522] *)

Definition PCD_IDLE : Z := 0x00.
Definition PCD_AUTHENT : Z := 0x0E.
Definition PCD_TRANSCEIVE : Z := 0x0C.

Definition PICC_REQIDL : Z := 0x26.
Definition PICC_ANTICOLL : Z := 0x93.

Definition CommandReg : Z := 0x01.
Definition ComIEnReg : Z := 0x02.
Definition ComIrqReg : Z := 0x04.
Definition ErrorReg : Z := 0x06.
Definition Status1Reg : Z := 0x07.
Definition FIFODataReg : Z := 0x09.
Definition FIFOLevelReg : Z := 0x0A.
Definition ControlReg : Z := 0x0C.
Definition BitFramingReg : Z := 0x0D.

Record MFRC522 : Type := { address : Z }.

(** Return values of [toCard], [request] and [anticoll].  An array read
    past the end gives [undefined], here [None]. *)
Record toCard_result : Type :=
  { card_status : Z; card_data : list Z; card_backLen : Z }.

Record request_result : Type :=
  { req_status : Z; req_type : option Z }.

Record anticoll_result : Type :=
  { anti_status : Z; anti_uid : list Z }.

(** What one register write and one register read leave on the bus. *)
Definition reg_write (self : MFRC522) (reg value : Z) : trace :=
  [I2cWriteBuffer (address self) [uint8 reg; uint8 value]].

Definition reg_read (self : MFRC522) (reg value : Z) : trace :=
  [I2cWriteNumber (address self) (uint8 reg); I2cReadNumber (address self) value].

Section Driver.

Variable chip : device.

(** *** Platform primitives ([pins]) *)

Definition i2cWriteBuffer (addr : Z) (buf : list Z) : io unit :=
  fun t => (tt, t ++ [I2cWriteBuffer addr buf]).

Definition i2cWriteNumber (addr value : Z) : io unit :=
  fun t => (tt, t ++ [I2cWriteNumber addr (uint8 value)]).

Definition i2cReadNumber (addr : Z) : io Z :=
  fun t => let v := uint8 (chip t) in (v, t ++ [I2cReadNumber addr v]).

(** *** Methods of [MFRC522] *)

Variable self : MFRC522.

Definition writeRegister (reg value : Z) : io unit :=
  let buf := [uint8 reg; uint8 value] in
  i2cWriteBuffer (address self) buf.

Definition readRegister (reg : Z) : io Z :=
  i2cWriteNumber (address self) reg ;;
  i2cReadNumber (address self).

Definition setRegisterBitMask (reg mask : Z) : io unit :=
  tmp <- readRegister reg ;;
  writeRegister reg (Z.lor tmp mask).

Definition clearRegisterBitMask (reg mask : Z) : io unit :=
  tmp <- readRegister reg ;;
  writeRegister reg (Z.land tmp (Z.lnot mask)).

(** [toCard], first part: the interrupt masks chosen by the command. *)
Definition toCard_masks (command : Z) : Z * Z :=
  if command =? PCD_AUTHENT then (0x12, 0x10)
  else if command =? PCD_TRANSCEIVE then (0x77, 0x30)
  else (0x00, 0x00).

(** The loop [for (i = 0; i < sendData.length; i++)] over the payload. *)
Fixpoint toCard_fill (sendData : list Z) : io unit :=
  match sendData with
  | [] => ret tt
  | b :: rest => writeRegister FIFODataReg b ;; toCard_fill rest
  end.

(** [toCard] up to the start of the command. *)
Definition toCard_send (command irqEn : Z) (sendData : list Z) : io unit :=
  writeRegister ComIEnReg (Z.lor irqEn 0x80) ;;
  clearRegisterBitMask ComIrqReg 0x80 ;;
  setRegisterBitMask FIFOLevelReg 0x80 ;;
  writeRegister CommandReg PCD_IDLE ;;
  toCard_fill sendData ;;
  writeRegister CommandReg command ;;
  if command =? PCD_TRANSCEIVE
  then setRegisterBitMask BitFramingReg 0x80
  else ret tt.

(** The loop [while (i > 0)]: [i] is the budget left and [n] the last
    reading; the result is their value when the loop is left. *)
Fixpoint toCard_wait (waitIRq : Z) (i : nat) (n : Z) : io (nat * Z) :=
  match i with
  | O => ret (O, n)
  | S i' =>
      n <- readRegister ComIrqReg ;;
      if truthy (Z.land n waitIRq) then ret (i, n)
      else if truthy (Z.land n 0x01) then ret (i, n)
      else toCard_wait waitIRq i' n
  end.

(** The loop [for (k = 0; k < n; k++) backData.push(...)]: [count]
    iterations are left. *)
Fixpoint toCard_drain (count : nat) (backData : list Z) : io (list Z) :=
  match count with
  | O => ret backData
  | S count' =>
      b <- readRegister FIFODataReg ;;
      toCard_drain count' (backData ++ [b])
  end.

(** [toCard] after the loop: [i] and [n] are what the loop left.  The
    source initialises [status] with [Status1Reg] and assigns it on every
    path before returning it; each path below returns the value assigned
    last. *)
Definition toCard_recv (command irqEn : Z) (i : nat) (n : Z)
  : io toCard_result :=
  let backData := [] in
  let backLen := 0 in
  if negb (Nat.eqb i 0) then
    err <- readRegister ErrorReg ;;
    if Z.land err 0x1B =? 0 then
      let status := 0 in
      let status := if truthy (Z.land (Z.land n irqEn) 0x01) then 1 else status in
      if command =? PCD_TRANSCEIVE then
        n <- readRegister FIFOLevelReg ;;
        ctl <- readRegister ControlReg ;;
        let lastBits := Z.land ctl 0x07 in
        let backLen :=
          if negb (lastBits =? 0) then (n - 1) * 8 + lastBits else n * 8 in
        let n := if n =? 0 then 1 else n in
        let n := if n >? 16 then 16 else n in
        backData <- toCard_drain (Z.to_nat n) backData ;;
        ret {| card_status := status; card_data := backData; card_backLen := backLen |}
      else
        ret {| card_status := status; card_data := backData; card_backLen := backLen |}
    else
      ret {| card_status := 2; card_data := backData; card_backLen := backLen |}
  else
    ret {| card_status := 2; card_data := backData; card_backLen := backLen |}.

Definition toCard (command : Z) (sendData : list Z) : io toCard_result :=
  let '(irqEn, waitIRq) := toCard_masks command in
  toCard_send command irqEn sendData ;;
  ' (i, n) <- toCard_wait waitIRq 2000 0 ;;
  toCard_recv command irqEn i n.

Definition request (reqMode : Z) : io request_result :=
  let bitFraming := 0x07 in
  writeRegister BitFramingReg bitFraming ;;
  result <- toCard PCD_TRANSCEIVE [reqMode] ;;
  let status :=
    if negb (card_status result =? 2) && (card_backLen result =? 0x10)
    then 0 else 2 in
  ret {| req_status := status; req_type := nth_error (card_data result) 0 |}.

(** The loop [for (i = 0; i < 4; i++)] of [anticoll], entered only with
    five response bytes, so that every index is inside the array. *)
Definition anticoll_fold (data : list Z) : Z * list Z :=
  fold_left
    (fun (st : Z * list Z) (i : nat) =>
       let (bcc, uid) := st in
       (Z.lxor bcc (nth i data 0), uid ++ [nth i data 0]))
    (seq 0 4) (0, []).

(** [anticoll] after the exchange. *)
Definition anticoll_check (result : toCard_result) : anticoll_result :=
  let status := 2 in
  let uid := [] in
  if card_status result =? 0 then
    if Nat.eqb (List.length (card_data result)) 5 then
      let (bcc, uid) := anticoll_fold (card_data result) in
      if bcc =? nth 4 (card_data result) 0
      then {| anti_status := 0; anti_uid := uid |}
      else {| anti_status := status; anti_uid := uid |}
    else {| anti_status := status; anti_uid := uid |}
  else {| anti_status := status; anti_uid := uid |}.

Definition anticoll : io anticoll_result :=
  writeRegister BitFramingReg 0x00 ;;
  result <- toCard PCD_TRANSCEIVE [PICC_ANTICOLL; 0x20] ;;
  ret (anticoll_check result).

End Driver.

(** ** Initialisation *)

Definition PCD_RESETPHASE : Z := 0x0F.

Definition ModeReg : Z := 0x11.
Definition TxControlReg : Z := 0x14.
Definition TxASKReg : Z := 0x15.
Definition TModeReg : Z := 0x2A.
Definition TPrescalerReg : Z := 0x2B.
Definition TReloadRegH : Z := 0x2C.
Definition TReloadRegL : Z := 0x2D.

(** [basic.pause(ms)] only lets time pass: nothing goes over the bus. *)
Definition pause (ms : Z) : io unit := ret tt.

Section Setup.

Variable chip : device.
Variable self : MFRC522.

Definition antennaOn : io unit :=
  temp <- readRegister chip self TxControlReg ;;
  if Z.land temp 0x03 =? 0
  then setRegisterBitMask chip self TxControlReg 0x03
  else ret tt.

(** The method [init] of the class. *)
Definition MFRC522_init : io unit :=
  writeRegister self CommandReg PCD_RESETPHASE ;;
  pause 50 ;;
  writeRegister self TModeReg 0x8D ;;
  writeRegister self TPrescalerReg 0x3E ;;
  writeRegister self TReloadRegH 0 ;;
  writeRegister self TReloadRegL 30 ;;
  writeRegister self TxASKReg 0x40 ;;
  writeRegister self ModeReg 0x3D ;;
  antennaOn.

End Setup.


(** ** [readUID] *)

(** [Number.toString()] of an integer: its decimal digits. *)
Definition toString (n : Z) : string := NilZero.string_of_int (Z.to_int n).

Definition upper_char (c : ascii) : ascii :=
  let n := nat_of_ascii c in
  if (Nat.leb 97 n && Nat.leb n 122)%bool then ascii_of_nat (n - 32) else c.

Fixpoint toUpperCase (s : string) : string :=
  match s with
  | EmptyString => EmptyString
  | String c rest => String (upper_char c) (toUpperCase rest)
  end.

(** The loop [for (i = 0; i < anti.uid.length; i++)] of [readUID], from
    the accumulator [hex]. *)
Definition readUID_digits (uid : list Z) (hex : string) : string :=
  fold_left
    (fun (hex : string) (byte : Z) =>
       let hex := if byte <? 16 then (hex ++ "0")%string else hex in
       (hex ++ toString byte)%string)
    uid hex.

(** [_instance] is the module-level driver, [null] until [init]. *)
Definition readUID (chip : device) (_instance : option MFRC522) : io string :=
  match _instance with
  | None => ret ""%string
  | Some inst =>
      result <- request chip inst PICC_REQIDL ;;
      if negb (req_status result =? 0) then ret ""%string
      else
        anti <- anticoll chip inst ;;
        if anti_status anti =? 0
        then ret (toUpperCase (readUID_digits (anti_uid anti) ""))
        else ret ""%string
  end.

(** The hexadecimal rendering of an identifier, as the comment
    "Convert UID to hex string" of [readUID] and the name of its variable
    announce it: two upper-case hexadecimal digits per byte.  It is not
    taken from the code; it is what [readUID] is compared with. *)
Definition hex_digit (d : Z) : ascii :=
  nth (Z.to_nat d)
    ["0"; "1"; "2"; "3"; "4"; "5"; "6"; "7";
     "8"; "9"; "A"; "B"; "C"; "D"; "E"; "F"]%char "0"%char.

Definition hex_byte (b : Z) : string :=
  String (hex_digit (b / 16)) (String (hex_digit (b mod 16)) EmptyString).

Fixpoint hex_rendering (uid : list Z) : string :=
  match uid with
  | [] => EmptyString
  | b :: rest => (hex_byte b ++ hex_rendering rest)%string
  end.

(** ** Chips that follow a script *)

Fixpoint reads_so_far (t : trace) : nat :=
  match t with
  | [] => O
  | I2cReadNumber _ _ :: rest => S (reads_so_far rest)
  | _ :: rest => reads_so_far rest
  end.

(** The chip whose [k]-th answer is the [k]-th entry of [answers], and 0
    once the script is over. *)
Definition scripted (answers : list Z) : device :=
  fun t => nth (reads_so_far t) answers 0.

(** A byte, as the bus carries it. *)
Definition is_byte (v : Z) : Prop := 0 <= v < 256.

(** A reading of the interrupt-request register that ends the wait. *)
Definition fires (waitIRq n : Z) : bool :=
  truthy (Z.land n waitIRq) || truthy (Z.land n 0x01).

(** The consecutive readings [values] of one register, on the bus. *)
Definition reg_reads (self : MFRC522) (reg : Z) (values : list Z) : trace :=
  flat_map (reg_read self reg) values.

Definition reg_writes (self : MFRC522) (reg : Z) (values : list Z) : trace :=
  flat_map (reg_write self reg) values.

(** The invariant stated for exchange results: the bit length lies in the
    range of the last received byte. *)
Definition bits_within_bytes (r : toCard_result) : Prop :=
  card_backLen r <= Z.of_nat (List.length (card_data r)) * 8 /\
  (card_data r <> [] ->
   card_backLen r > (Z.of_nat (List.length (card_data r)) - 1) * 8).

(** The read count [toCard] derives from the reported FIFO level. *)
Definition clamp_level (n : Z) : Z :=
  let n := if n =? 0 then 1 else n in
  if n >? 16 then 16 else n.

Definition mfrc := {| address := 0x28 |}.

(** A card answering the request with ATQA [04 00]. *)
Definition chip_atqa : device :=
  scripted [0; 0; 0; 0x30; 0; 2; 0; 0x04; 0x00].

(** A card answering the anti-collision with UID [12 34 56 78] and its
    checksum [08]. *)
Definition chip_uid_ok : device :=
  scripted [0; 0; 0; 0x30; 0; 5; 0; 0x12; 0x34; 0x56; 0x78; 0x08].

(** The same answer with a wrong checksum byte. *)
Definition chip_uid_bad : device :=
  scripted [0; 0; 0; 0x30; 0; 5; 0; 0x12; 0x34; 0x56; 0x78; 0x00].

(** A full card read: request, then anti-collision with UID [AB 0C 07 64]. *)
Definition chip_card : device :=
  scripted [0; 0; 0; 0x30; 0; 2; 0; 0x04; 0x00;
            0; 0; 0; 0x30; 0; 5; 0; 0xAB; 0x0C; 0x07; 0x64; 0xC4].

(** A chip that never answers anything but 0. *)
Definition chip_silent : device := fun _ => 0.

(** The chip reports an empty FIFO after a completed exchange. *)
Definition chip_empty_fifo : device := scripted [0; 0; 0; 0x30; 0; 0; 0].

(** The chip reports 17 bytes in the FIFO. *)
Definition chip_long_fifo : device := scripted [0; 0; 0; 0x30; 0; 17; 0].

(** Every register reads 0x01: the timer interrupt is raised, and no bit
    of the wait masks 0x10 and 0x30 ever is. *)
Definition chip_timer : device := fun _ => 0x01.

(** * Vocabulary of the statements *)

Section Bus_view.

Variable chip : device.
Variable self : MFRC522.

(** The byte the chip answers when [reg] is read after [t]. *)
Definition answer (reg : Z) (t : trace) : Z :=
  uint8 (chip (t ++ [I2cWriteNumber (address self) (uint8 reg)])).

(** What [toCard] puts on the bus before it starts waiting. *)
Definition send_prefix (irqEn : Z) (t : trace) : trace :=
  let t1 := t ++ reg_write self ComIEnReg (Z.lor irqEn 0x80) in
  let a1 := answer ComIrqReg t1 in
  let t2 := t1 ++ reg_read self ComIrqReg a1
               ++ reg_write self ComIrqReg (Z.land a1 (Z.lnot 0x80)) in
  let a2 := answer FIFOLevelReg t2 in
  reg_write self ComIEnReg (Z.lor irqEn 0x80)
  ++ reg_read self ComIrqReg a1
  ++ reg_write self ComIrqReg (Z.land a1 (Z.lnot 0x80))
  ++ reg_read self FIFOLevelReg a2
  ++ reg_write self FIFOLevelReg (Z.lor a2 0x80).

Definition send_suffix (command : Z) (t : trace) : trace :=
  if command =? PCD_TRANSCEIVE
  then reg_read self BitFramingReg (answer BitFramingReg t)
       ++ reg_write self BitFramingReg (Z.lor (answer BitFramingReg t) 0x80)
  else [].

End Bus_view.

(** How the wait loop is left: a reading fired with budget to spare, or
    the budget ran out on readings that never fired. *)
Inductive wait_exit (waitIRq : Z) (i : nat) (vs : list Z) (i' : nat) : Prop :=
| wait_fired (quiet : list Z) (v : Z) :
    vs = quiet ++ [v] ->
    Forall (fun x => fires waitIRq x = false) quiet ->
    fires waitIRq v = true ->
    (List.length quiet < i)%nat ->
    i' = (i - List.length quiet)%nat ->
    wait_exit waitIRq i vs i'
| wait_exhausted :
    Forall (fun x => fires waitIRq x = false) vs ->
    List.length vs = i ->
    i' = O ->
    wait_exit waitIRq i vs i'.

(** Status of a completed exchange: 1 when the timer interrupt is both
    enabled and raised in the captured flags, else 0. *)
Definition completion_status (n irqEn : Z) : Z :=
  if truthy (Z.land (Z.land n irqEn) 0x01) then 1 else 0.

(** The bit length computed from the FIFO level and the control register. *)
Definition bit_length (lvl ctl : Z) : Z :=
  if Z.land ctl 0x07 =? 0 then lvl * 8 else (lvl - 1) * 8 + Z.land ctl 0x07.

Definition failed : toCard_result :=
  {| card_status := 2; card_data := []; card_backLen := 0 |}.

(** The four ways through the end of [toCard], with what each leaves on
    the bus. *)
Inductive recv_outcome (self : MFRC522) (command irqEn : Z) (i : nat) (n : Z)
  (t : trace) (r : toCard_result) (t' : trace) : Prop :=
| recv_timeout :
    i = O -> r = failed -> t' = t ->
    recv_outcome self command irqEn i n t r t'
| recv_error (err : Z) :
    i <> O -> is_byte err -> Z.land err 0x1B <> 0 ->
    r = failed -> t' = t ++ reg_read self ErrorReg err ->
    recv_outcome self command irqEn i n t r t'
| recv_no_data (err : Z) :
    i <> O -> is_byte err -> Z.land err 0x1B = 0 ->
    command <> PCD_TRANSCEIVE ->
    r = {| card_status := completion_status n irqEn;
           card_data := []; card_backLen := 0 |} ->
    t' = t ++ reg_read self ErrorReg err ->
    recv_outcome self command irqEn i n t r t'
| recv_data (err lvl ctl : Z) :
    i <> O -> is_byte err -> Z.land err 0x1B = 0 ->
    command = PCD_TRANSCEIVE ->
    is_byte lvl -> is_byte ctl ->
    card_status r = completion_status n irqEn ->
    card_backLen r = bit_length lvl ctl ->
    List.length (card_data r) = Z.to_nat (clamp_level lvl) ->
    Forall is_byte (card_data r) ->
    t' = t ++ reg_read self ErrorReg err
           ++ reg_read self FIFOLevelReg lvl
           ++ reg_read self ControlReg ctl
           ++ reg_reads self FIFODataReg (card_data r) ->
    recv_outcome self command irqEn i n t r t'.

(** The budget left, the last reading and the bus when [toCard] leaves
    its wait loop. *)
Definition toCard_polled (chip : device) (self : MFRC522) (command : Z)
  (sendData : list Z) (t : trace) : (nat * Z) * trace :=
  toCard_wait chip self (snd (toCard_masks command)) 2000 0
    (snd (toCard_send chip self command (fst (toCard_masks command)) sendData t)).

(** The values written to the FIFO data register, in bus order. *)
Definition fifo_written (t : trace) : list Z :=
  flat_map
    (fun e =>
       match e with
       | I2cWriteBuffer _ [reg; value] =>
           if reg =? FIFODataReg then [value] else []
       | _ => []
       end) t.

(** The exchange [request] performs, after its write of the bit-framing
    register. *)
Definition request_exchange (chip : device) (self : MFRC522) (reqMode : Z)
  (t : trace) : toCard_result * trace :=
  toCard chip self PCD_TRANSCEIVE [reqMode]
    (snd (writeRegister self BitFramingReg 0x07 t)).

(** The exchange [anticoll] performs. *)
Definition anticoll_exchange (chip : device) (self : MFRC522) (t : trace)
  : toCard_result * trace :=
  toCard chip self PCD_TRANSCEIVE [PICC_ANTICOLL; 0x20]
    (snd (writeRegister self BitFramingReg 0x00 t)).

(** [data[0] ^ data[1] ^ data[2] ^ data[3]]. *)
Definition xor4 (data : list Z) : Z :=
  Z.lxor (Z.lxor (Z.lxor (nth 0 data 0) (nth 1 data 0)) (nth 2 data 0))
    (nth 3 data 0).

(** What one identifier byte adds to the string of [readUID]. *)
Definition readUID_byte (byte : Z) : string :=
  ((if (byte <? 16)%Z then "0" else "") ++ toString byte)%string.

Fixpoint dec_rendering (uid : list Z) : string :=
  match uid with
  | [] => EmptyString
  | b :: rest => (readUID_byte b ++ dec_rendering rest)%string
  end.

(** The two calls of [readUID]. *)
Definition readUID_request (chip : device) (self : MFRC522) (t : trace)
  : request_result * trace :=
  request chip self PICC_REQIDL t.

Definition readUID_anticoll (chip : device) (self : MFRC522) (t : trace)
  : anticoll_result * trace :=
  anticoll chip self (snd (readUID_request chip self t)).

(** Checked on each of the 256 bytes: upper-casing leaves the decimal
    digits alone, a byte adds at least two characters, and these are its
    two hexadecimal digits only when the byte is at most 9. *)
Definition byte_check (b : Z) : bool :=
  (String.eqb (toUpperCase (readUID_byte b)) (readUID_byte b)
   && Nat.leb 2 (String.length (readUID_byte b))
   && (negb (String.eqb (readUID_byte b) (hex_byte b)) || (b <=? 9)))%bool.

(** A card whose identifier is [03 09 00 07]. *)
Definition chip_small_uid : device :=
  scripted [0; 0; 0; 0x30; 0; 2; 0; 0x04; 0x00;
            0; 0; 0; 0x30; 0; 5; 0; 0x03; 0x09; 0x00; 0x07; 0x0D].

(** ** Vocabulary of the further properties *)

(** The bus address a transaction is sent to. *)
Definition event_address (e : i2c_event) : Z :=
  match e with
  | I2cWriteBuffer a _ => a
  | I2cWriteNumber a _ => a
  | I2cReadNumber a _ => a
  end.

(** A method only appends to the bus trace, only transactions addressed
    to its own chip, and at most [k] reads among them. *)
Definition talks (self : MFRC522) (k : nat) {A : Type} (m : io A) : Prop :=
  forall t : trace,
  exists ext : trace,
    snd (m t) = t ++ ext /\
    Forall (fun e => event_address e = address self) ext /\
    (reads_so_far ext <= k)%nat.

Definition is_digit (c : ascii) : bool :=
  (Nat.leb 48 (nat_of_ascii c) && Nat.leb (nat_of_ascii c) 57)%bool.

Fixpoint all_digits (s : string) : bool :=
  match s with
  | EmptyString => true
  | String c rest => (is_digit c && all_digits rest)%bool
  end.

(** Checked on each of the 256 bytes: what a byte adds to the string of
    [readUID] is two or three decimal digits, and it is the two
    hexadecimal digits of the byte whenever the byte is at most 9. *)
Definition byte_shape_check (b : Z) : bool :=
  (all_digits (readUID_byte b)
   && Nat.leb 2 (String.length (readUID_byte b))
   && Nat.leb (String.length (readUID_byte b)) 3
   && (negb (b <=? 9) || String.eqb (readUID_byte b) (hex_byte b)))%bool.

(** The string [readUID] builds from an identifier. *)
Definition readUID_string (uid : list Z) : string :=
  toUpperCase (readUID_digits uid "").


(** * Properties *)

(** ** Bytes and the bus primitives *)

Lemma uint8_is_byte (v : Z) : is_byte (uint8 v).
Proof. unfold is_byte, uint8. apply Z.mod_pos_bound. lia. Qed.

Lemma uint8_of_byte (v : Z) : is_byte v -> uint8 v = v.
Proof. unfold is_byte, uint8. intros H. apply Z.mod_small. exact H. Qed.

Section Runs.

Variable chip : device.
Variable self : MFRC522.

Lemma answer_is_byte (reg : Z) (t : trace) : is_byte (answer chip self reg t).
Proof. apply uint8_is_byte. Qed.

Lemma writeRegister_run (reg value : Z) (t : trace) :
  writeRegister self reg value t = (tt, t ++ reg_write self reg value).
Proof. reflexivity. Qed.

Lemma readRegister_run (reg : Z) (t : trace) :
  readRegister chip self reg t
  = (answer chip self reg t, t ++ reg_read self reg (answer chip self reg t)).
Proof.
  unfold readRegister, bind, i2cWriteNumber, i2cReadNumber, answer, reg_read.
  cbn. rewrite <- app_assoc. reflexivity.
Qed.

Lemma setRegisterBitMask_run (reg mask : Z) (t : trace) :
  setRegisterBitMask chip self reg mask t
  = (tt, t ++ reg_read self reg (answer chip self reg t)
           ++ reg_write self reg (Z.lor (answer chip self reg t) mask)).
Proof.
  unfold setRegisterBitMask, bind. rewrite readRegister_run, writeRegister_run.
  rewrite <- app_assoc. reflexivity.
Qed.

Lemma clearRegisterBitMask_run (reg mask : Z) (t : trace) :
  clearRegisterBitMask chip self reg mask t
  = (tt, t ++ reg_read self reg (answer chip self reg t)
           ++ reg_write self reg (Z.land (answer chip self reg t) (Z.lnot mask))).
Proof.
  unfold clearRegisterBitMask, bind. rewrite readRegister_run, writeRegister_run.
  rewrite <- app_assoc. reflexivity.
Qed.

Lemma toCard_fill_run (sendData : list Z) (t : trace) :
  toCard_fill self sendData t = (tt, t ++ reg_writes self FIFODataReg sendData).
Proof.
  revert t. induction sendData as [| b rest IH]; intros t.
  - cbn. rewrite app_nil_r. reflexivity.
  - cbn [toCard_fill]. unfold bind. rewrite writeRegister_run, IH.
    rewrite <- app_assoc. reflexivity.
Qed.

Lemma toCard_send_run (command irqEn : Z) (sendData : list Z) (t : trace) :
  let body := send_prefix chip self irqEn t
              ++ reg_write self CommandReg PCD_IDLE
              ++ reg_writes self FIFODataReg sendData
              ++ reg_write self CommandReg command in
  toCard_send chip self command irqEn sendData t
  = (tt, t ++ body ++ send_suffix chip self command (t ++ body)).
Proof.
  cbv zeta. unfold toCard_send, bind, send_prefix, send_suffix.
  rewrite writeRegister_run, clearRegisterBitMask_run, setRegisterBitMask_run.
  rewrite writeRegister_run, toCard_fill_run, writeRegister_run.
  destruct (command =? PCD_TRANSCEIVE).
  - rewrite setRegisterBitMask_run.
    repeat rewrite <- app_assoc. reflexivity.
  - unfold ret. repeat rewrite <- app_assoc. rewrite app_nil_r. reflexivity.
Qed.

End Runs.

(** ** The loops of [toCard] *)

Lemma last_cons_default (v d : Z) (l : list Z) : last (v :: l) d = last l v.
Proof.
  revert v d. induction l as [| w l IH]; intros v d; [reflexivity |].
  change (last (v :: w :: l) d) with (last (w :: l) d).
  rewrite (IH w d), (IH w v). reflexivity.
Qed.

Lemma reg_reads_cons (self : MFRC522) (reg v : Z) (vs : list Z) :
  reg_reads self reg (v :: vs) = reg_read self reg v ++ reg_reads self reg vs.
Proof. reflexivity. Qed.

Lemma reg_reads_app (self : MFRC522) (reg : Z) (us vs : list Z) :
  reg_reads self reg (us ++ vs) = reg_reads self reg us ++ reg_reads self reg vs.
Proof. unfold reg_reads. apply flat_map_app. Qed.

Section Loops.

Variable chip : device.
Variable self : MFRC522.

Lemma toCard_wait_step (waitIRq : Z) (i : nat) (n : Z) (t : trace) :
  toCard_wait chip self waitIRq (S i) n t
  = let v := answer chip self ComIrqReg t in
    let t' := t ++ reg_read self ComIrqReg v in
    if fires waitIRq v then ((S i, v), t')
    else toCard_wait chip self waitIRq i v t'.
Proof.
  cbn [toCard_wait]. unfold bind. rewrite readRegister_run. cbv zeta.
  unfold fires.
  destruct (truthy (Z.land (answer chip self ComIrqReg t) waitIRq));
    [reflexivity |].
  destruct (truthy (Z.land (answer chip self ComIrqReg t) 1)); reflexivity.
Qed.

Lemma toCard_wait_run (waitIRq : Z) (i : nat) (n : Z) (t : trace) :
  exists vs : list Z,
    snd (toCard_wait chip self waitIRq i n t)
    = t ++ reg_reads self ComIrqReg vs /\
    Forall is_byte vs /\
    snd (fst (toCard_wait chip self waitIRq i n t)) = last vs n /\
    wait_exit waitIRq i vs (fst (fst (toCard_wait chip self waitIRq i n t))).
Proof.
  revert n t. induction i as [| i IH]; intros n t.
  - exists []. cbn. rewrite app_nil_r.
    split; [reflexivity | split; [constructor | split; [reflexivity |]]].
    apply wait_exhausted; [constructor | reflexivity | reflexivity].
  - rewrite toCard_wait_step. cbv zeta.
    pose proof (answer_is_byte chip self ComIrqReg t) as Hv.
    remember (answer chip self ComIrqReg t) as v eqn:Ev. clear Ev.
    destruct (fires waitIRq v) eqn:Hq.
    + exists [v]. cbn.
      split; [reflexivity | split; [| split; [reflexivity |]]].
      * constructor; [exact Hv | constructor].
      * apply (wait_fired _ _ _ _ [] v); cbn;
          [reflexivity | constructor | exact Hq | lia | reflexivity].
    + destruct (IH v (t ++ reg_read self ComIrqReg v))
        as (vs & Htr & Hb & Hn & Hex).
      exists (v :: vs). rewrite Htr, Hn, reg_reads_cons, <- app_assoc.
      split; [reflexivity | split; [| split]].
      * constructor; assumption.
      * symmetry. apply last_cons_default.
      * destruct Hex as [quiet w Hvs Hqs Hf Hlt Hi' | Hqs Hlen Hi'].
        -- apply (wait_fired _ _ _ _ (v :: quiet) w); cbn.
           ++ rewrite Hvs. reflexivity.
           ++ constructor; assumption.
           ++ exact Hf.
           ++ lia.
           ++ exact Hi'.
        -- apply wait_exhausted; cbn.
           ++ constructor; assumption.
           ++ rewrite Hlen. reflexivity.
           ++ exact Hi'.
Qed.

Lemma toCard_drain_run (count : nat) (backData : list Z) (t : trace) :
  exists vs : list Z,
    toCard_drain chip self count backData t
    = (backData ++ vs, t ++ reg_reads self FIFODataReg vs) /\
    List.length vs = count /\ Forall is_byte vs.
Proof.
  revert backData t. induction count as [| count IH]; intros backData t.
  - exists []. cbn. rewrite !app_nil_r.
    split; [reflexivity | split; [reflexivity | constructor]].
  - cbn [toCard_drain]. unfold bind. rewrite readRegister_run.
    pose proof (answer_is_byte chip self FIFODataReg t) as Hv.
    remember (answer chip self FIFODataReg t) as v eqn:Ev. clear Ev.
    destruct (IH (backData ++ [v]) (t ++ reg_read self FIFODataReg v))
      as (vs & Hrun & Hlen & Hb).
    exists (v :: vs). rewrite Hrun, reg_reads_cons, <- !app_assoc.
    split; [reflexivity | split].
    + cbn. rewrite Hlen. reflexivity.
    + constructor; [exact Hv | exact Hb].
Qed.

End Loops.

(** ** The outcomes of [toCard] *)

Lemma completion_status_cases (n irqEn : Z) :
  completion_status n irqEn = 0 \/ completion_status n irqEn = 1.
Proof. unfold completion_status. destruct (truthy _); auto. Qed.

Lemma clamp_level_range (lvl : Z) : 0 <= lvl -> 1 <= clamp_level lvl <= 16.
Proof.
  intros Hl. unfold clamp_level.
  destruct (lvl =? 0) eqn:E0.
  - cbn. lia.
  - apply Z.eqb_neq in E0.
    destruct (lvl >? 16) eqn:E16; [lia |].
    rewrite Z.gtb_ltb in E16. apply Z.ltb_ge in E16. lia.
Qed.

Section Outcomes.

Variable chip : device.
Variable self : MFRC522.

Lemma toCard_recv_outcome (command irqEn : Z) (i : nat) (n : Z) (t : trace)
  (r : toCard_result) (t' : trace) :
  toCard_recv chip self command irqEn i n t = (r, t') ->
  recv_outcome self command irqEn i n t r t'.
Proof.
  unfold toCard_recv. destruct i as [| i]; cbn [Nat.eqb negb].
  - unfold ret. intros [= <- <-]. apply recv_timeout; reflexivity.
  - unfold bind at 1. rewrite readRegister_run.
    pose proof (answer_is_byte chip self ErrorReg t) as Herr.
    remember (answer chip self ErrorReg t) as err eqn:Ee. clear Ee.
    destruct (Z.land err 27 =? 0) eqn:E.
    + apply Z.eqb_eq in E.
      destruct (command =? PCD_TRANSCEIVE) eqn:Ec.
      * apply Z.eqb_eq in Ec.
        unfold bind. rewrite !readRegister_run.
        set (t1 := t ++ reg_read self ErrorReg err).
        pose proof (answer_is_byte chip self FIFOLevelReg t1) as Hlvl.
        remember (answer chip self FIFOLevelReg t1) as lvl eqn:El. clear El.
        set (t2 := t1 ++ reg_read self FIFOLevelReg lvl).
        pose proof (answer_is_byte chip self ControlReg t2) as Hctl.
        remember (answer chip self ControlReg t2) as ctl eqn:Ecl. clear Ecl.
        fold (clamp_level lvl).
        destruct (toCard_drain_run chip self (Z.to_nat (clamp_level lvl)) []
                    (t2 ++ reg_read self ControlReg ctl))
          as (vs & Hrun & Hlen & Hb).
        rewrite Hrun. unfold ret. cbn [app]. intros [= <- <-].
        apply (recv_data _ _ _ _ _ _ _ _ err lvl ctl);
          cbn [card_status card_data card_backLen];
          try assumption; try discriminate; try reflexivity.
        -- unfold bit_length. destruct (Z.land ctl 7 =? 0); reflexivity.
        -- unfold t2, t1. rewrite <- ?app_assoc. reflexivity.
      * apply Z.eqb_neq in Ec. unfold ret. intros [= <- <-].
        apply (recv_no_data _ _ _ _ _ _ _ _ err);
          try assumption; try discriminate; reflexivity.
    + apply Z.eqb_neq in E. unfold ret. intros [= <- <-].
      apply (recv_error _ _ _ _ _ _ _ _ err);
        try assumption; try discriminate; reflexivity.
Qed.

End Outcomes.

(** ** [toCard] as a whole *)

Lemma fifo_written_app (t u : trace) :
  fifo_written (t ++ u) = fifo_written t ++ fifo_written u.
Proof. unfold fifo_written. apply flat_map_app. Qed.

Lemma fifo_written_reg_reads (self : MFRC522) (reg : Z) (vs : list Z) :
  fifo_written (reg_reads self reg vs) = [].
Proof. induction vs as [| v vs IH]; [reflexivity | exact IH]. Qed.

Lemma fifo_written_reg_read (self : MFRC522) (reg v : Z) :
  fifo_written (reg_read self reg v) = [].
Proof. reflexivity. Qed.

Lemma fifo_written_fill (self : MFRC522) (sendData : list Z) :
  fifo_written (reg_writes self FIFODataReg sendData) = map uint8 sendData.
Proof.
  induction sendData as [| b rest IH]; [reflexivity |].
  cbn. f_equal. exact IH.
Qed.

Lemma map_uint8_bytes (l : list Z) : Forall is_byte l -> map uint8 l = l.
Proof.
  induction 1 as [| b rest Hb _ IH]; [reflexivity |].
  cbn. rewrite IH, (uint8_of_byte b Hb). reflexivity.
Qed.

Lemma land_7_range (ctl : Z) : 0 <= Z.land ctl 7 <= 7.
Proof.
  assert (E : Z.land ctl 7 = ctl mod 8)
    by (change 7 with (Z.ones 3); rewrite Z.land_ones by lia; reflexivity).
  rewrite E. pose proof (Z.mod_pos_bound ctl 8 ltac:(lia)). lia.
Qed.

Section Exchange.

Variable chip : device.
Variable self : MFRC522.

Lemma toCard_unfold (command : Z) (sendData : list Z) (t : trace) :
  toCard chip self command sendData t
  = toCard_recv chip self command (fst (toCard_masks command))
      (fst (fst (toCard_polled chip self command sendData t)))
      (snd (fst (toCard_polled chip self command sendData t)))
      (snd (toCard_polled chip self command sendData t)).
Proof.
  unfold toCard, toCard_polled.
  destruct (toCard_masks command) as [irqEn waitIRq]. unfold bind.
  cbn [fst snd].
  destruct (toCard_send chip self command irqEn sendData t) as [[] t1].
  cbn [snd].
  destruct (toCard_wait chip self waitIRq 2000 0 t1) as [[i n] t2].
  reflexivity.
Qed.

Lemma toCard_outcome (command : Z) (sendData : list Z) (t : trace) :
  recv_outcome self command (fst (toCard_masks command))
    (fst (fst (toCard_polled chip self command sendData t)))
    (snd (fst (toCard_polled chip self command sendData t)))
    (snd (toCard_polled chip self command sendData t))
    (fst (toCard chip self command sendData t))
    (snd (toCard chip self command sendData t)).
Proof.
  apply (toCard_recv_outcome chip). rewrite <- toCard_unfold.
  destruct (toCard chip self command sendData t). reflexivity.
Qed.

(** A failed exchange carries no data; any other carries bytes only. *)
Lemma toCard_data_bytes (command : Z) (sendData : list Z) (t : trace) :
  Forall is_byte (card_data (fst (toCard chip self command sendData t))).
Proof.
  destruct (toCard_outcome command sendData t)
    as [_ -> _ | err _ _ _ -> _ | err _ _ _ _ -> _
        | err lvl ctl _ _ _ _ _ _ _ _ _ Hb _];
    try constructor; exact Hb.
Qed.

Lemma toCard_failed_no_data (command : Z) (sendData : list Z) (t : trace) :
  card_status (fst (toCard chip self command sendData t)) = 2 ->
  card_data (fst (toCard chip self command sendData t)) = [].
Proof.
  destruct (toCard_outcome command sendData t)
    as [_ -> _ | err _ _ _ -> _ | err _ _ _ _ -> _
        | err lvl ctl _ _ _ _ _ _ Hs _ _ _ _];
    try reflexivity.
  rewrite Hs. destruct (completion_status_cases
    (snd (fst (toCard_polled chip self command sendData t)))
    (fst (toCard_masks command))) as [-> | ->]; discriminate.
Qed.

(** A transceive that did not fail read the level, the control register
    and then its data. *)
Lemma toCard_transceive_data (sendData : list Z) (t : trace) :
  card_status (fst (toCard chip self PCD_TRANSCEIVE sendData t)) <> 2 ->
  exists (t0 : trace) (lvl ctl : Z),
    snd (toCard chip self PCD_TRANSCEIVE sendData t)
    = t0 ++ reg_read self FIFOLevelReg lvl
         ++ reg_read self ControlReg ctl
         ++ reg_reads self FIFODataReg
              (card_data (fst (toCard chip self PCD_TRANSCEIVE sendData t))) /\
    is_byte lvl /\
    card_backLen (fst (toCard chip self PCD_TRANSCEIVE sendData t))
    = bit_length lvl ctl /\
    List.length (card_data (fst (toCard chip self PCD_TRANSCEIVE sendData t)))
    = Z.to_nat (clamp_level lvl).
Proof.
  intros Hok.
  destruct (toCard_outcome PCD_TRANSCEIVE sendData t)
    as [_ Hr _ | err _ _ _ Hr _ | err _ _ _ Hne _ _
        | err lvl ctl _ _ _ _ Hl _ _ Hbl Hlen _ Htr].
  - rewrite Hr in Hok. exfalso. apply Hok. reflexivity.
  - rewrite Hr in Hok. exfalso. apply Hok. reflexivity.
  - exfalso. apply Hne. reflexivity.
  - exists (snd (toCard_polled chip self PCD_TRANSCEIVE sendData t)
            ++ reg_read self ErrorReg err), lvl, ctl.
    rewrite Htr, <- !app_assoc. auto.
Qed.

End Exchange.

Lemma fifo_written_reg_write_other (self : MFRC522) (reg value : Z) :
  uint8 reg <> FIFODataReg -> fifo_written (reg_write self reg value) = [].
Proof.
  intros H. cbn. apply Z.eqb_neq in H. rewrite H. reflexivity.
Qed.

Lemma reg_writes_bytes (self : MFRC522) (reg : Z) (l : list Z) :
  is_byte reg -> Forall is_byte l ->
  reg_writes self reg l = map (fun b => I2cWriteBuffer (address self) [reg; b]) l.
Proof.
  intros Hr. induction 1 as [| b rest Hb _ IH]; [reflexivity |].
  cbn. rewrite (uint8_of_byte reg Hr), (uint8_of_byte b Hb). f_equal. exact IH.
Qed.

Ltac other_register := cbv; discriminate.

Section Shape.

Variable chip : device.
Variable self : MFRC522.

Lemma fifo_written_send_prefix (irqEn : Z) (t : trace) :
  fifo_written (send_prefix chip self irqEn t) = [].
Proof.
  unfold send_prefix. cbv zeta.
  rewrite !fifo_written_app, !fifo_written_reg_read.
  rewrite !fifo_written_reg_write_other by other_register.
  reflexivity.
Qed.

Lemma fifo_written_send_suffix (command : Z) (t : trace) :
  fifo_written (send_suffix chip self command t) = [].
Proof.
  unfold send_suffix. destruct (command =? PCD_TRANSCEIVE); [| reflexivity].
  rewrite fifo_written_app, fifo_written_reg_read.
  rewrite fifo_written_reg_write_other by other_register.
  reflexivity.
Qed.

(** The whole bus activity of [toCard]: the payload goes to the FIFO
    between the two writes of the command register, and nowhere else. *)
Lemma toCard_trace_shape (command : Z) (sendData : list Z) (t : trace) :
  exists post : trace,
    snd (toCard chip self command sendData t)
    = t ++ send_prefix chip self (fst (toCard_masks command)) t
        ++ reg_write self CommandReg PCD_IDLE
        ++ reg_writes self FIFODataReg sendData
        ++ reg_write self CommandReg command
        ++ post /\
    fifo_written post = [].
Proof.
  pose proof (toCard_outcome chip self command sendData t) as Hout.
  unfold toCard_polled in Hout.
  destruct (toCard_wait_run chip self (snd (toCard_masks command)) 2000 0
              (snd (toCard_send chip self command
                      (fst (toCard_masks command)) sendData t)))
    as (vs & Hpoll & _ & _ & _).
  rewrite Hpoll in Hout. rewrite toCard_send_run in Hout.
  cbv zeta in Hout. cbn [snd] in Hout.
  set (body := send_prefix chip self (fst (toCard_masks command)) t
               ++ reg_write self CommandReg PCD_IDLE
               ++ reg_writes self FIFODataReg sendData
               ++ reg_write self CommandReg command) in *.
  set (sfx := send_suffix chip self command (t ++ body)) in *.
  assert (Hs : fifo_written sfx = []) by apply fifo_written_send_suffix.
  assert (Hend : exists ext,
             snd (toCard chip self command sendData t)
             = ((t ++ body ++ sfx) ++ reg_reads self ComIrqReg vs) ++ ext /\
             fifo_written ext = []).
  { destruct Hout
      as [_ _ Htr | err _ _ _ _ Htr | err _ _ _ _ _ Htr
          | err lvl ctl _ _ _ _ _ _ _ _ _ _ Htr].
    - exists []. rewrite app_nil_r. auto.
    - exists (reg_read self ErrorReg err). auto.
    - exists (reg_read self ErrorReg err). auto.
    - eexists. split; [exact Htr |].
      rewrite !fifo_written_app, !fifo_written_reg_read,
        fifo_written_reg_reads. reflexivity. }
  destruct Hend as (ext & Htr & Hext).
  exists (sfx ++ reg_reads self ComIrqReg vs ++ ext). split.
  - rewrite Htr. unfold body. rewrite <- !app_assoc. reflexivity.
  - rewrite !fifo_written_app, Hs, fifo_written_reg_reads, Hext. reflexivity.
Qed.

End Shape.

(** ** Concrete runs *)

(** A card answers the request with two full bytes. *)
Example request_atqa :
  fst (request chip_atqa mfrc PICC_REQIDL [])
  = {| req_status := 0; req_type := Some 0x04 |}.
Proof. vm_compute. reflexivity. Qed.

(** Two bytes of which the last has only seven valid bits: 15 bits. *)
Example request_15_bits :
  fst (request (scripted [0; 0; 0; 0x30; 0; 2; 7; 0x04; 0x00]) mfrc PICC_REQIDL [])
  = {| req_status := 2; req_type := Some 0x04 |}.
Proof. vm_compute. reflexivity. Qed.

(** No card: the budget of 2000 readings runs out. *)
Example request_silent :
  fst (request chip_silent mfrc PICC_REQIDL [])
  = {| req_status := 2; req_type := None |}.
Proof. vm_compute. reflexivity. Qed.

Example anticoll_uid_ok :
  fst (anticoll chip_uid_ok mfrc [])
  = {| anti_status := 0; anti_uid := [0x12; 0x34; 0x56; 0x78] |}.
Proof. vm_compute. reflexivity. Qed.

Example anticoll_uid_bad :
  fst (anticoll chip_uid_bad mfrc [])
  = {| anti_status := 2; anti_uid := [0x12; 0x34; 0x56; 0x78] |}.
Proof. vm_compute. reflexivity. Qed.

(** Seventeen bytes reported: sixteen are read, for 136 bits. *)
Example toCard_long_fifo :
  fst (toCard chip_long_fifo mfrc PCD_TRANSCEIVE [PICC_REQIDL] [])
  = {| card_status := 0; card_data := repeat 0 16; card_backLen := 136 |}.
Proof. vm_compute. reflexivity. Qed.

(** The timer fires at once: status 1, and the FIFO is read all the same. *)
Example toCard_timer :
  fst (toCard (scripted [0; 0; 0; 0x01]) mfrc PCD_TRANSCEIVE [PICC_REQIDL] [])
  = {| card_status := 1; card_data := [0]; card_backLen := 0 |}.
Proof. vm_compute. reflexivity. Qed.

Example readUID_card :
  fst (readUID chip_card (Some mfrc) []) = "17101207100"%string.
Proof. vm_compute. reflexivity. Qed.

Example readUID_no_instance :
  readUID chip_card None [] = (""%string, []).
Proof. reflexivity. Qed.

(** * Specified properties *)

(** ** Command Executor *)

(** C3. On the success path of a Transceive, with [n] the FIFO level the
    chip reported and [v] the low three bits of the control register (so
    [v] is in 0..7), [backLen] is [n * 8] when [v = 0] and
    [(n - 1) * 8 + v] otherwise; the bus then shows as many reads of the
    FIFO data register as bytes returned, and that number is in [1, 16]:
    1 for a reported 0, 16 for anything above 16, [n] otherwise. *)
Theorem toCard_backLen_and_read_count
  (chip : device) (self : MFRC522) (sendData : list Z) (t : trace) :
  card_status (fst (toCard chip self PCD_TRANSCEIVE sendData t)) <> 2 ->
  exists (t0 : trace) (n ctl : Z),
    let r := fst (toCard chip self PCD_TRANSCEIVE sendData t) in
    let v := Z.land ctl 0x07 in
    snd (toCard chip self PCD_TRANSCEIVE sendData t)
    = t0 ++ reg_read self FIFOLevelReg n
         ++ reg_read self ControlReg ctl
         ++ reg_reads self FIFODataReg (card_data r) /\
    is_byte n /\ 0 <= v <= 7 /\
    (v = 0 -> card_backLen r = n * 8) /\
    (v <> 0 -> card_backLen r = (n - 1) * 8 + v) /\
    (1 <= List.length (card_data r) <= 16)%nat /\
    (n = 0 -> List.length (card_data r) = 1%nat) /\
    (16 < n -> List.length (card_data r) = 16%nat) /\
    (1 <= n <= 16 -> Z.of_nat (List.length (card_data r)) = n).
Proof.
  intros Hok.
  destruct (toCard_transceive_data chip self sendData t Hok)
    as (t0 & n & ctl & Htr & Hn & Hbl & Hlen).
  exists t0, n, ctl. cbv zeta.
  pose proof (land_7_range ctl) as Hv.
  pose proof (clamp_level_range n (proj1 Hn)) as Hc.
  rewrite Hbl, Hlen. unfold bit_length.
  split; [exact Htr |]. split; [exact Hn |]. split; [exact Hv |].
  split; [intros E; rewrite E; reflexivity |].
  split.
  { intros E. apply Z.eqb_neq in E. rewrite E. reflexivity. }
  split; [lia |].
  unfold clamp_level in *.
  split; [intros ->; reflexivity |].
  split.
  - intros Hbig. destruct (n =? 0) eqn:E0; [apply Z.eqb_eq in E0; lia |].
    assert (E16 : (n >? 16) = true) by (apply Z.gtb_lt; lia).
    rewrite E16. reflexivity.
  - intros Hin. destruct (n =? 0) eqn:E0; [apply Z.eqb_eq in E0; lia |].
    assert (E16 : (n >? 16) = false)
      by (rewrite Z.gtb_ltb; apply Z.ltb_ge; lia).
    rewrite E16. lia.
Qed.

Lemma toCard_backLen_and_read_count_witness :
  card_status (fst (toCard chip_atqa mfrc PCD_TRANSCEIVE [PICC_REQIDL] [])) <> 2 /\
  exists (t0 : trace) (n ctl : Z),
    let r := fst (toCard chip_atqa mfrc PCD_TRANSCEIVE [PICC_REQIDL] []) in
    let v := Z.land ctl 0x07 in
    snd (toCard chip_atqa mfrc PCD_TRANSCEIVE [PICC_REQIDL] [])
    = t0 ++ reg_read mfrc FIFOLevelReg n
         ++ reg_read mfrc ControlReg ctl
         ++ reg_reads mfrc FIFODataReg (card_data r) /\
    is_byte n /\ 0 <= v <= 7 /\
    (v = 0 -> card_backLen r = n * 8) /\
    (v <> 0 -> card_backLen r = (n - 1) * 8 + v) /\
    (1 <= List.length (card_data r) <= 16)%nat /\
    (n = 0 -> List.length (card_data r) = 1%nat) /\
    (16 < n -> List.length (card_data r) = 16%nat) /\
    (1 <= n <= 16 -> Z.of_nat (List.length (card_data r)) = n).
Proof.
  assert (H : card_status
                (fst (toCard chip_atqa mfrc PCD_TRANSCEIVE [PICC_REQIDL] [])) <> 2)
    by (vm_compute; discriminate).
  split; [exact H |].
  exact (toCard_backLen_and_read_count chip_atqa mfrc [PICC_REQIDL] [] H).
Defined.

(** C4, as amended.  An exchange that returns no bytes reports 0 bits.
    One that returns bytes read the FIFO level [n] first, and its bit
    length lies within the last returned byte exactly when [n] is between
    1 and 16: for [n = 0] one byte is read for at most 0 bits, and for
    [n > 16] sixteen bytes are read for more than 128 bits. *)
Theorem toCard_bits_within_bytes_iff
  (chip : device) (self : MFRC522) (command : Z) (sendData : list Z) (t : trace) :
  let r := fst (toCard chip self command sendData t) in
  (card_data r = [] /\ card_backLen r = 0 /\ bits_within_bytes r) \/
  (card_data r <> [] /\
   exists (t0 : trace) (n ctl : Z),
     snd (toCard chip self command sendData t)
     = t0 ++ reg_read self FIFOLevelReg n
          ++ reg_read self ControlReg ctl
          ++ reg_reads self FIFODataReg (card_data r) /\
     (bits_within_bytes r <-> 1 <= n <= 16)).
Proof.
  cbv zeta.
  destruct (toCard_outcome chip self command sendData t)
    as [_ Hr _ | err _ _ _ Hr _ | err _ _ _ _ Hr _
        | err lvl ctl _ _ _ Hc Hl _ _ Hbl Hlen _ Htr].
  1-3: left; rewrite Hr; unfold bits_within_bytes; cbn;
       (split; [reflexivity | split; [reflexivity | split; [lia | congruence]]]).
  right.
  pose proof (clamp_level_range lvl (proj1 Hl)) as Hcl.
  assert (Hne : card_data (fst (toCard chip self command sendData t)) <> []).
  { intros E. rewrite E in Hlen. cbn in Hlen. lia. }
  split; [exact Hne |].
  exists (snd (toCard_polled chip self command sendData t)
          ++ reg_read self ErrorReg err), lvl, ctl.
  split; [rewrite Htr, <- !app_assoc; reflexivity |].
  unfold bits_within_bytes. rewrite Hbl, Hlen.
  rewrite Z2Nat.id by lia.
  pose proof (land_7_range ctl) as Hv.
  unfold bit_length, clamp_level in *.
  destruct (Z.land ctl 7 =? 0) eqn:Ev;
    [apply Z.eqb_eq in Ev | apply Z.eqb_neq in Ev];
    (destruct (lvl =? 0) eqn:E0;
     [apply Z.eqb_eq in E0 | apply Z.eqb_neq in E0]);
    (destruct ((if false then 1 else lvl) >? 16) eqn:E16; cbn in E16;
     [try (apply Z.gtb_lt in E16)
     | try (rewrite Z.gtb_ltb in E16; apply Z.ltb_ge in E16)]);
    try discriminate;
    (split; [intros [H1 H2]; specialize (H2 Hne); lia
            | intros H; split; [| intros _]; lia]).
Qed.

(** C4 as stated fails: when the chip reports an empty FIFO after a
    completed Transceive, one byte is read and the bit length is 0, which
    is not above [(1 - 1) * 8]. *)
Lemma toCard_bits_outside_bytes :
  ~ bits_within_bytes
      (fst (toCard chip_empty_fifo mfrc PCD_TRANSCEIVE [PICC_REQIDL] [])).
Proof.
  assert (E : fst (toCard chip_empty_fifo mfrc PCD_TRANSCEIVE [PICC_REQIDL] [])
              = {| card_status := 0; card_data := [0]; card_backLen := 0 |})
    by (vm_compute; reflexivity).
  rewrite E. unfold bits_within_bytes. cbn. intros [_ H].
  assert (H0 : 0 > 0) by (apply H; discriminate). lia.
Qed.

(** The wait loop on its own, started with a budget of 2000: at most 2000
    readings, left at the first one that fires, or after exactly 2000
    that did not. *)
Lemma toCard_wait_bounded
  (chip : device) (self : MFRC522) (waitIRq : Z) (t : trace) :
  exists vs : list Z,
    let left := fst (fst (toCard_wait chip self waitIRq 2000 0 t)) in
    snd (toCard_wait chip self waitIRq 2000 0 t)
    = t ++ reg_reads self ComIrqReg vs /\
    (1 <= List.length vs <= 2000)%nat /\
    ((exists (quiet : list Z) (v : Z),
         vs = quiet ++ [v] /\
         Forall (fun x => fires waitIRq x = false) quiet /\
         fires waitIRq v = true /\
         left = (2000 - List.length quiet)%nat /\ left <> O)
     \/
     (Forall (fun x => fires waitIRq x = false) vs /\
      List.length vs = 2000%nat /\ left = O)) /\
    (Forall (fun x => fires waitIRq x = false) vs ->
     List.length vs = 2000%nat /\ left = O).
Proof.
  destruct (toCard_wait_run chip self waitIRq 2000 0 t)
    as (vs & Htr & _ & _ & Hex).
  exists vs. cbv zeta.
  remember (fst (fst (toCard_wait chip self waitIRq 2000 0 t))) as left
    eqn:El. clear El.
  split; [exact Htr |].
  destruct Hex as [quiet v Hvs Hq Hf Hlt Hleft | Hq Hlen Hleft].
  - assert (Hl : List.length vs = S (List.length quiet)).
    { rewrite Hvs, length_app. cbn. lia. }
    split; [lia |]. split.
    + left. exists quiet, v. repeat split; try assumption. lia.
    + intros Hall. exfalso. rewrite Hvs in Hall.
      apply Forall_app in Hall. destruct Hall as [_ Hall].
      inversion Hall as [| x l Hx _]; subst. congruence.
  - split; [lia |]. split.
    + right. auto.
    + intros _. auto.
Qed.

(** C6, as amended.  Whatever the chip answers, [toCard] polls the
    interrupt-request register, right after it has started the command,
    at least once and at most 2000 times.  It stops polling at the first
    reading that shows a bit of the command's wait mask or the timer bit
    0x01, and goes on to read the error register; when no reading shows
    either, it stops after exactly 2000 readings, reads nothing more and
    returns status 2. *)
Theorem toCard_poll_bounded
  (chip : device) (self : MFRC522) (command : Z) (sendData : list Z) (t : trace) :
  let waitIRq := snd (toCard_masks command) in
  let sent :=
    snd (toCard_send chip self command (fst (toCard_masks command)) sendData t) in
  exists (vs : list Z) (rest : trace),
    snd (toCard chip self command sendData t)
    = sent ++ reg_reads self ComIrqReg vs ++ rest /\
    (1 <= List.length vs <= 2000)%nat /\
    ((exists (quiet : list Z) (v err : Z) (rest' : trace),
         vs = quiet ++ [v] /\
         Forall (fun x => fires waitIRq x = false) quiet /\
         fires waitIRq v = true /\
         rest = reg_read self ErrorReg err ++ rest')
     \/
     (Forall (fun x => fires waitIRq x = false) vs /\
      List.length vs = 2000%nat /\
      rest = [] /\
      card_status (fst (toCard chip self command sendData t)) = 2)) /\
    (Forall (fun x => fires waitIRq x = false) vs ->
     List.length vs = 2000%nat).
Proof.
  cbv zeta.
  pose proof (toCard_outcome chip self command sendData t) as Hout.
  unfold toCard_polled in Hout.
  destruct (toCard_wait_run chip self (snd (toCard_masks command)) 2000 0
              (snd (toCard_send chip self command
                      (fst (toCard_masks command)) sendData t)))
    as (vs & Htr & _ & _ & Hex).
  rewrite Htr in Hout.
  remember (snd (toCard_send chip self command
                   (fst (toCard_masks command)) sendData t)) as sent eqn:Es.
  remember (fst (fst (toCard_wait chip self (snd (toCard_masks command))
                        2000 0 sent))) as left eqn:El.
  remember (snd (fst (toCard_wait chip self (snd (toCard_masks command))
                        2000 0 sent))) as n eqn:En.
  clear Es El En Htr.
  destruct Hex as [quiet v Hvs Hq Hf Hlt Hleft | Hq Hlen Hleft].
  - assert (Hl : List.length vs = S (List.length quiet)).
    { rewrite Hvs, length_app. cbn. lia. }
    assert (Hrest : exists (err : Z) (rest' : trace),
               snd (toCard chip self command sendData t)
               = (sent ++ reg_reads self ComIrqReg vs)
                 ++ reg_read self ErrorReg err ++ rest').
    { destruct Hout
        as [H0 _ _ | err _ _ _ _ H | err _ _ _ _ _ H
            | err lvl ctl _ _ _ _ _ _ _ _ _ _ H].
      - exfalso. lia.
      - exists err, []. rewrite app_nil_r. exact H.
      - exists err, []. rewrite app_nil_r. exact H.
      - exists err. eexists. exact H. }
    destruct Hrest as (err & rest' & Hrest).
    exists vs, (reg_read self ErrorReg err ++ rest').
    split; [rewrite Hrest, <- app_assoc; reflexivity |].
    split; [lia |]. split.
    + left. exists quiet, v, err, rest'. auto.
    + intros Hall. exfalso. rewrite Hvs in Hall.
      apply Forall_app in Hall. destruct Hall as [_ Hall].
      inversion Hall as [| x l Hx _]; subst. congruence.
  - exists vs, []. rewrite app_nil_r.
    destruct Hout
      as [_ Hr H | err H0 _ _ _ _ | err H0 _ _ _ _ _
          | err lvl ctl H0 _ _ _ _ _ _ _ _ _ _]; try contradiction.
    split; [exact H |]. split; [lia |]. split.
    + right. rewrite Hr. auto.
    + intros _. exact Hlen.
Qed.

(** C6 as stated fails: a chip whose registers all read 0x01 never shows
    a bit of the Transceive wait mask 0x30, yet [toCard] stops polling
    after one reading, not 2000, and goes on to the error register. *)
Lemma toCard_timer_stops_early :
  ~ (forall (vs : list Z) (rest : trace),
        snd (toCard chip_timer mfrc PCD_TRANSCEIVE [PICC_REQIDL] [])
        = snd (toCard_send chip_timer mfrc PCD_TRANSCEIVE
                 (fst (toCard_masks PCD_TRANSCEIVE)) [PICC_REQIDL] [])
          ++ reg_reads mfrc ComIrqReg vs ++ rest ->
        (rest = [] \/
         exists (err : Z) (rest' : trace),
           rest = reg_read mfrc ErrorReg err ++ rest') ->
        Forall (fun v => Z.land v 0x30 = 0) vs ->
        List.length vs = 2000%nat).
Proof.
  intros H.
  assert (E : snd (toCard chip_timer mfrc PCD_TRANSCEIVE [PICC_REQIDL] [])
              = snd (toCard_send chip_timer mfrc PCD_TRANSCEIVE
                       (fst (toCard_masks PCD_TRANSCEIVE)) [PICC_REQIDL] [])
                ++ reg_reads mfrc ComIrqReg [1] ++ reg_read mfrc ErrorReg 1)
    by (vm_compute; reflexivity).
  specialize (H [1] (reg_read mfrc ErrorReg 1) E).
  assert (Hrest : reg_read mfrc ErrorReg 1 = [] \/
                  exists (err : Z) (rest' : trace),
                    reg_read mfrc ErrorReg 1 = reg_read mfrc ErrorReg err ++ rest').
  { right. exists 1, []. reflexivity. }
  assert (Hq : Forall (fun v => Z.land v 0x30 = 0) [1])
    by (constructor; [reflexivity | constructor]).
  specialize (H Hrest Hq). discriminate H.
Qed.

(** C7. When the wait loop of [toCard] is left with no budget, the result
    is status 2 with no data and bit length 0, whatever the chip would
    answer for the error register: the bus activity ends with the 2000
    readings of the interrupt-request register, so neither the error
    register nor the FIFO is read. *)
Theorem toCard_exhausted_is_error
  (chip : device) (self : MFRC522) (command : Z) (sendData : list Z) (t : trace) :
  fst (fst (toCard_polled chip self command sendData t)) = O ->
  toCard chip self command sendData t
  = ({| card_status := 2; card_data := []; card_backLen := 0 |},
     snd (toCard_polled chip self command sendData t)) /\
  exists vs : list Z,
    snd (toCard_polled chip self command sendData t)
    = snd (toCard_send chip self command (fst (toCard_masks command)) sendData t)
      ++ reg_reads self ComIrqReg vs /\
    List.length vs = 2000%nat.
Proof.
  intros H0. split.
  - rewrite toCard_unfold, H0. reflexivity.
  - unfold toCard_polled in *.
    destruct (toCard_wait_run chip self (snd (toCard_masks command)) 2000 0
                (snd (toCard_send chip self command
                        (fst (toCard_masks command)) sendData t)))
      as (vs & Htr & _ & _ & Hex).
    exists vs. split; [exact Htr |].
    destruct Hex as [quiet v _ _ _ Hlt Hleft | _ Hlen _]; [| exact Hlen].
    rewrite H0 in Hleft. lia.
Qed.

Lemma toCard_exhausted_is_error_witness :
  fst (fst (toCard_polled chip_silent mfrc PCD_TRANSCEIVE [PICC_REQIDL] [])) = O /\
  toCard chip_silent mfrc PCD_TRANSCEIVE [PICC_REQIDL] []
  = ({| card_status := 2; card_data := []; card_backLen := 0 |},
     snd (toCard_polled chip_silent mfrc PCD_TRANSCEIVE [PICC_REQIDL] [])).
Proof.
  assert (H : fst (fst (toCard_polled chip_silent mfrc PCD_TRANSCEIVE
                          [PICC_REQIDL] [])) = O)
    by (vm_compute; reflexivity).
  split; [exact H |].
  exact (proj1 (toCard_exhausted_is_error chip_silent mfrc PCD_TRANSCEIVE
                  [PICC_REQIDL] [] H)).
Defined.

(** C8. For a payload of at most 16 bytes, [toCard] writes the payload
    bytes, all of them and in order, to the FIFO data register after it
    has written Idle to the command register and before it writes the
    requested opcode there; nothing else is written to the FIFO data
    register before or after. *)
Theorem toCard_fifo_writes
  (chip : device) (self : MFRC522) (command : Z) (sendData : list Z) (t : trace) :
  (List.length sendData <= 16)%nat ->
  Forall is_byte sendData ->
  is_byte command ->
  exists pre post : trace,
    snd (toCard chip self command sendData t)
    = t ++ pre
        ++ [I2cWriteBuffer (address self) [CommandReg; PCD_IDLE]]
        ++ map (fun b => I2cWriteBuffer (address self) [FIFODataReg; b]) sendData
        ++ [I2cWriteBuffer (address self) [CommandReg; command]]
        ++ post /\
    fifo_written pre = [] /\
    fifo_written post = [] /\
    fifo_written (snd (toCard chip self command sendData t))
    = fifo_written t ++ sendData.
Proof.
  intros _ Hbytes Hcmd.
  destruct (toCard_trace_shape chip self command sendData t)
    as (post & Htr & Hpost).
  exists (send_prefix chip self (fst (toCard_masks command)) t), post.
  assert (Hfill : reg_writes self FIFODataReg sendData
                  = map (fun b => I2cWriteBuffer (address self) [FIFODataReg; b])
                      sendData).
  { apply reg_writes_bytes; [cbv; split; [discriminate | reflexivity] | exact Hbytes]. }
  assert (Hop : reg_write self CommandReg command
                = [I2cWriteBuffer (address self) [CommandReg; command]]).
  { unfold reg_write. rewrite (uint8_of_byte command Hcmd). reflexivity. }
  split; [| split; [apply fifo_written_send_prefix | split; [exact Hpost |]]].
  - rewrite Htr, Hfill, Hop. reflexivity.
  - rewrite Htr. rewrite !fifo_written_app.
    rewrite fifo_written_send_prefix, fifo_written_fill, Hpost.
    rewrite !fifo_written_reg_write_other by other_register.
    rewrite (map_uint8_bytes sendData Hbytes), app_nil_r. reflexivity.
Qed.

Lemma toCard_fifo_writes_witness :
  exists pre post : trace,
    snd (toCard chip_uid_ok mfrc PCD_TRANSCEIVE [PICC_ANTICOLL; 0x20] [])
    = [] ++ pre
        ++ [I2cWriteBuffer (address mfrc) [CommandReg; PCD_IDLE]]
        ++ map (fun b => I2cWriteBuffer (address mfrc) [FIFODataReg; b])
             [PICC_ANTICOLL; 0x20]
        ++ [I2cWriteBuffer (address mfrc) [CommandReg; PCD_TRANSCEIVE]]
        ++ post /\
    fifo_written pre = [] /\
    fifo_written post = [] /\
    fifo_written (snd (toCard chip_uid_ok mfrc PCD_TRANSCEIVE
                         [PICC_ANTICOLL; 0x20] []))
    = fifo_written [] ++ [PICC_ANTICOLL; 0x20].
Proof.
  apply (toCard_fifo_writes chip_uid_ok mfrc PCD_TRANSCEIVE [PICC_ANTICOLL; 0x20] []).
  - cbn. lia.
  - repeat constructor; discriminate.
  - split; [discriminate | reflexivity].
Defined.

(** ** Request and Anti-Collision *)

Lemma request_unfold (chip : device) (self : MFRC522) (reqMode : Z) (t : trace) :
  request chip self reqMode t
  = ({| req_status :=
          if negb (card_status (fst (request_exchange chip self reqMode t)) =? 2)
             && (card_backLen (fst (request_exchange chip self reqMode t)) =? 16)
          then 0 else 2;
        req_type :=
          nth_error (card_data (fst (request_exchange chip self reqMode t))) 0 |},
     snd (request_exchange chip self reqMode t)).
Proof.
  unfold request, request_exchange, bind. cbn [writeRegister i2cWriteBuffer snd].
  destruct (toCard chip self PCD_TRANSCEIVE [reqMode] _) as [r t'].
  reflexivity.
Qed.

Lemma anticoll_unfold (chip : device) (self : MFRC522) (t : trace) :
  anticoll chip self t
  = (anticoll_check (fst (anticoll_exchange chip self t)),
     snd (anticoll_exchange chip self t)).
Proof.
  unfold anticoll, anticoll_exchange, bind. cbn [writeRegister i2cWriteBuffer snd].
  destruct (toCard chip self PCD_TRANSCEIVE [PICC_ANTICOLL; 32] _) as [r t'].
  reflexivity.
Qed.

(** A transceive that did not fail returned at least one byte. *)
Lemma toCard_transceive_nonempty
  (chip : device) (self : MFRC522) (sendData : list Z) (t : trace) :
  card_status (fst (toCard chip self PCD_TRANSCEIVE sendData t)) <> 2 ->
  exists (b : Z) (rest : list Z),
    card_data (fst (toCard chip self PCD_TRANSCEIVE sendData t)) = b :: rest.
Proof.
  intros Hok.
  destruct (toCard_transceive_data chip self sendData t Hok)
    as (t0 & n & ctl & _ & Hn & _ & Hlen).
  pose proof (clamp_level_range n (proj1 Hn)) as Hc.
  destruct (card_data (fst (toCard chip self PCD_TRANSCEIVE sendData t)))
    as [| b rest].
  - cbn in Hlen. lia.
  - exists b, rest. reflexivity.
Qed.

Lemma request_exchange_nonempty
  (chip : device) (self : MFRC522) (reqMode : Z) (t : trace) :
  card_status (fst (request_exchange chip self reqMode t)) <> 2 ->
  exists (b : Z) (rest : list Z),
    card_data (fst (request_exchange chip self reqMode t)) = b :: rest.
Proof. unfold request_exchange. apply toCard_transceive_nonempty. Qed.

Lemma request_exchange_bytes
  (chip : device) (self : MFRC522) (reqMode : Z) (t : trace) :
  Forall is_byte (card_data (fst (request_exchange chip self reqMode t))).
Proof. unfold request_exchange. apply toCard_data_bytes. Qed.

Lemma request_exchange_failed
  (chip : device) (self : MFRC522) (reqMode : Z) (t : trace) :
  card_status (fst (request_exchange chip self reqMode t)) = 2 ->
  card_data (fst (request_exchange chip self reqMode t)) = [].
Proof. unfold request_exchange. apply toCard_failed_no_data. Qed.

Lemma anticoll_exchange_bytes (chip : device) (self : MFRC522) (t : trace) :
  Forall is_byte (card_data (fst (anticoll_exchange chip self t))).
Proof. unfold anticoll_exchange. apply toCard_data_bytes. Qed.

(** What [anticoll] makes of an exchange result. *)
Lemma anticoll_check_cases (r : toCard_result) :
  (card_status r = 0 /\ List.length (card_data r) = 5%nat /\
   anti_uid (anticoll_check r) = firstn 4 (card_data r) /\
   ((xor4 (card_data r) = nth 4 (card_data r) 0 /\
     anti_status (anticoll_check r) = 0)
    \/
    (xor4 (card_data r) <> nth 4 (card_data r) 0 /\
     anti_status (anticoll_check r) = 2)))
  \/
  ((card_status r <> 0 \/ List.length (card_data r) <> 5%nat) /\
   anticoll_check r = {| anti_status := 2; anti_uid := [] |}).
Proof.
  unfold anticoll_check.
  destruct (card_status r =? 0) eqn:Es;
    [apply Z.eqb_eq in Es | apply Z.eqb_neq in Es; right; auto].
  destruct (Nat.eqb (List.length (card_data r)) 5) eqn:El;
    [apply Nat.eqb_eq in El | apply Nat.eqb_neq in El; right; auto].
  left. split; [exact Es |]. split; [exact El |].
  destruct (card_data r) as [| a [| b [| c [| d [| e [| f l]]]]]];
    try discriminate El.
  unfold anticoll_fold, xor4. cbn [seq fold_left nth firstn app].
  rewrite Z.lxor_0_l.
  destruct (Z.lxor (Z.lxor (Z.lxor a b) c) d =? e) eqn:Eb;
    [apply Z.eqb_eq in Eb | apply Z.eqb_neq in Eb];
    (split; [reflexivity |]); [left | right]; auto.
Qed.

(** C1. [anticoll] reports status 0 exactly when its exchange returned
    status 0 and five bytes whose first four XOR to the fifth, and the uid
    it then returns is those first four bytes; any other outcome is status
    2.  So the response [12 34 56 78] followed by [12^34^56^78] gives UID
    [12 34 56 78], and the same response followed by [00] fails. *)
Theorem anticoll_succeeds_iff (chip : device) (self : MFRC522) (t : trace) :
  let r := fst (anticoll_exchange chip self t) in
  let a := fst (anticoll chip self t) in
  (anti_status a = 0 <->
   card_status r = 0 /\ List.length (card_data r) = 5%nat /\
   xor4 (card_data r) = nth 4 (card_data r) 0) /\
  (anti_status a = 0 -> anti_uid a = firstn 4 (card_data r)) /\
  (anti_status a <> 0 -> anti_status a = 2) /\
  anticoll_check
    {| card_status := 0;
       card_data := [0x12; 0x34; 0x56; 0x78;
                     Z.lxor (Z.lxor (Z.lxor 0x12 0x34) 0x56) 0x78];
       card_backLen := 40 |}
  = {| anti_status := 0; anti_uid := [0x12; 0x34; 0x56; 0x78] |} /\
  anti_status
    (anticoll_check
       {| card_status := 0; card_data := [0x12; 0x34; 0x56; 0x78; 0x00];
          card_backLen := 40 |}) = 2.
Proof.
  cbv zeta. rewrite anticoll_unfold. cbn [fst].
  split; [| split; [| split; [| split; reflexivity]]];
    destruct (anticoll_check_cases (fst (anticoll_exchange chip self t)))
      as [(Hs & Hl & Hu & [[Hx Ha] | [Hx Ha]]) | [Hbad ->]];
    cbn [anti_status anti_uid]; try rewrite Ha.
  - split; auto.
  - split; [discriminate | intros (_ & _ & H); contradiction].
  - split; [discriminate | intros (H1 & H2 & _); destruct Hbad; contradiction].
  - intros _. exact Hu.
  - discriminate.
  - discriminate.
  - intros H. exfalso. apply H. reflexivity.
  - reflexivity.
  - reflexivity.
Qed.

(** C2. [request] reports status 0 exactly when its exchange returned a
    status other than 2 and a bit length of 16; the type it then reports
    is the first response byte; any other outcome is status 2. *)
Theorem request_succeeds_iff
  (chip : device) (self : MFRC522) (reqMode : Z) (t : trace) :
  let r := fst (request_exchange chip self reqMode t) in
  let q := fst (request chip self reqMode t) in
  (req_status q = 0 <-> card_status r <> 2 /\ card_backLen r = 16) /\
  (req_status q = 0 ->
   exists (b : Z) (rest : list Z),
     card_data r = b :: rest /\ req_type q = Some b) /\
  (req_status q <> 0 -> req_status q = 2).
Proof.
  cbv zeta. rewrite request_unfold. cbn [fst req_status req_type].
  set (r := fst (request_exchange chip self reqMode t)).
  assert (Hiff : (if negb (card_status r =? 2) && (card_backLen r =? 16)
                  then 0 else 2) = 0
                 <-> card_status r <> 2 /\ card_backLen r = 16).
  { destruct (card_status r =? 2) eqn:Es;
      [apply Z.eqb_eq in Es | apply Z.eqb_neq in Es];
      (destruct (card_backLen r =? 16) eqn:Eb;
       [apply Z.eqb_eq in Eb | apply Z.eqb_neq in Eb]);
      cbn; split; try discriminate; try tauto. }
  split; [exact Hiff |]. split.
  - intros H. apply Hiff in H. destruct H as [Hok _].
    destruct (request_exchange_nonempty chip self reqMode t Hok)
      as (b & rest & Hd).
    exists b, rest. unfold r. rewrite Hd. split; reflexivity.
  - destruct (negb (card_status r =? 2) && (card_backLen r =? 16));
      [intros H; exfalso; apply H; reflexivity | reflexivity].
Qed.

(** C5, as amended.  [anticoll] reports status 0 only when its exchange
    returned status 0 and five bytes with a valid checksum byte, and its
    uid is then the four identifier bytes.  When the exchange did not
    return status 0 or did not return five bytes, the status is 2 and the
    uid is empty.  On a checksum mismatch the status is 2 as well, but the
    uid field still holds the first four response bytes. *)
Theorem anticoll_uid_cases (chip : device) (self : MFRC522) (t : trace) :
  let r := fst (anticoll_exchange chip self t) in
  let a := fst (anticoll chip self t) in
  (anti_status a = 0 ->
   card_status r = 0 /\ List.length (card_data r) = 5%nat /\
   xor4 (card_data r) = nth 4 (card_data r) 0 /\
   anti_uid a = firstn 4 (card_data r) /\ List.length (anti_uid a) = 4%nat) /\
  (card_status r <> 0 \/ List.length (card_data r) <> 5%nat ->
   anti_status a = 2 /\ anti_uid a = []) /\
  (card_status r = 0 -> List.length (card_data r) = 5%nat ->
   xor4 (card_data r) <> nth 4 (card_data r) 0 ->
   anti_status a = 2 /\ anti_uid a = firstn 4 (card_data r) /\
   List.length (anti_uid a) = 4%nat).
Proof.
  cbv zeta. rewrite anticoll_unfold. cbn [fst].
  assert (H4 : forall l : list Z,
             List.length l = 5%nat -> List.length (firstn 4 l) = 4%nat).
  { intros l Hl. rewrite length_firstn, Hl. reflexivity. }
  destruct (anticoll_check_cases (fst (anticoll_exchange chip self t)))
    as [(Hs & Hl & Hu & [[Hx Ha] | [Hx Ha]]) | [Hbad ->]];
    cbn [anti_status anti_uid]; try rewrite Ha; try rewrite Hu.
  - split; [auto 6 | split; [intros [H | H]; contradiction |]].
    intros _ _ H. contradiction.
  - split; [discriminate | split; [intros [H | H]; contradiction |]].
    auto.
  - split; [discriminate | split; [auto |]].
    intros H1 H2 _. destruct Hbad; contradiction.
Qed.

(** C5 as stated fails: on the response [12 34 56 78 00], whose checksum
    byte is wrong, [anticoll] fails with status 2 and yet returns the
    four bytes in its uid field. *)
Lemma anticoll_uid_on_mismatch :
  ~ (anti_status (fst (anticoll chip_uid_bad mfrc [])) <> 0 ->
     anti_uid (fst (anticoll chip_uid_bad mfrc [])) = []).
Proof.
  assert (E : fst (anticoll chip_uid_bad mfrc [])
              = {| anti_status := 2; anti_uid := [0x12; 0x34; 0x56; 0x78] |})
    by (vm_compute; reflexivity).
  rewrite E. cbn. intros H.
  assert (H0 : [18; 52; 86; 120] = @nil Z) by (apply H; discriminate).
  discriminate H0.
Qed.

(** C9. The type field of [request] is always [result.data[0]].  When
    [request] succeeds the exchange returned at least one byte and the
    field is that byte; when the exchange failed with status 2 it returned
    no byte, and the field is the result of indexing an empty array. *)
Theorem request_type_index
  (chip : device) (self : MFRC522) (reqMode : Z) (t : trace) :
  let r := fst (request_exchange chip self reqMode t) in
  let q := fst (request chip self reqMode t) in
  req_type q = nth_error (card_data r) 0 /\
  (req_status q = 0 ->
   (0 < List.length (card_data r))%nat /\
   exists b : Z, req_type q = Some b /\ is_byte b) /\
  (card_status r = 2 ->
   card_data r = [] /\ req_type q = None /\ req_status q = 2).
Proof.
  cbv zeta. rewrite request_unfold. cbn [fst req_status req_type].
  set (r := fst (request_exchange chip self reqMode t)).
  split; [reflexivity |]. split.
  - intros H.
    assert (Hok : card_status r <> 2).
    { intros E. rewrite E in H. discriminate H. }
    destruct (request_exchange_nonempty chip self reqMode t Hok)
      as (b & rest & Hd).
    pose proof (request_exchange_bytes chip self reqMode t) as Hb.
    unfold r. rewrite Hd in *. split; [cbn; lia |].
    exists b. split; [reflexivity |]. inversion Hb; assumption.
  - intros E.
    pose proof (request_exchange_failed chip self reqMode t E) as Hf.
    unfold r in *. rewrite Hf, E. repeat split.
Qed.

(** ** [readUID] *)

Section Strings.

Local Open Scope string_scope.

Lemma append_assoc (a b c : string) : (a ++ b) ++ c = a ++ (b ++ c).
Proof. induction a as [| x a IH]; cbn; [reflexivity | rewrite IH; reflexivity]. Qed.

Lemma append_empty_r (a : string) : a ++ "" = a.
Proof. induction a as [| x a IH]; cbn; [reflexivity | rewrite IH; reflexivity]. Qed.

Lemma length_append (a b : string) :
  String.length (a ++ b) = (String.length a + String.length b)%nat.
Proof. induction a as [| x a IH]; cbn; [reflexivity | rewrite IH; reflexivity]. Qed.

Lemma append_inj (a b x y : string) :
  String.length a = String.length b -> a ++ x = b ++ y -> a = b /\ x = y.
Proof.
  revert b. induction a as [| c a IH]; intros [| d b] Hlen Heq;
    try discriminate Hlen.
  - split; [reflexivity | exact Heq].
  - cbn in Hlen, Heq. injection Hlen as Hlen. injection Heq as Hc Heq.
    destruct (IH b Hlen Heq) as [-> ->]. subst d. split; reflexivity.
Qed.

Lemma toUpperCase_append (a b : string) :
  toUpperCase (a ++ b) = toUpperCase a ++ toUpperCase b.
Proof. induction a as [| x a IH]; cbn; [reflexivity | rewrite IH; reflexivity]. Qed.

Lemma readUID_digits_run (uid : list Z) (hex : string) :
  readUID_digits uid hex = hex ++ dec_rendering uid.
Proof.
  revert hex. induction uid as [| b rest IH]; intros hex.
  - cbn. rewrite append_empty_r. reflexivity.
  - cbn [readUID_digits fold_left dec_rendering].
    fold (readUID_digits rest). rewrite IH. unfold readUID_byte.
    destruct (b <? 16)%Z; cbn [append]; rewrite ?append_assoc; reflexivity.
Qed.

Lemma byte_check_all : forallb byte_check (map Z.of_nat (seq 0 256)) = true.
Proof. vm_compute. reflexivity. Qed.

Lemma byte_facts (b : Z) :
  is_byte b ->
  toUpperCase (readUID_byte b) = readUID_byte b /\
  (2 <= String.length (readUID_byte b))%nat /\
  (readUID_byte b = hex_byte b -> (b <= 9)%Z).
Proof.
  intros Hb.
  assert (Hin : In b (map Z.of_nat (seq 0 256))).
  { rewrite <- (Z2Nat.id b) by apply Hb. apply in_map, in_seq.
    unfold is_byte in Hb. lia. }
  pose proof (proj1 (forallb_forall _ _) byte_check_all b Hin) as Hc.
  unfold byte_check in Hc.
  apply andb_true_iff in Hc. destruct Hc as [Hc H3].
  apply andb_true_iff in Hc. destruct Hc as [H1 H2].
  apply String.eqb_eq in H1. apply Nat.leb_le in H2.
  split; [exact H1 |]. split; [exact H2 |].
  intros E. apply orb_true_iff in H3. destruct H3 as [H3 | H3].
  - apply negb_true_iff, String.eqb_neq in H3. contradiction.
  - apply Z.leb_le in H3. exact H3.
Qed.

Lemma hex_rendering_length (uid : list Z) :
  String.length (hex_rendering uid) = (2 * List.length uid)%nat.
Proof.
  induction uid as [| b rest IH]; [reflexivity |].
  cbn [hex_rendering List.length]. rewrite length_append, IH. cbn. lia.
Qed.

Lemma dec_rendering_length (uid : list Z) :
  Forall is_byte uid ->
  (2 * List.length uid <= String.length (dec_rendering uid))%nat.
Proof.
  induction 1 as [| b rest Hb _ IH]; [cbn; lia |].
  cbn [dec_rendering List.length]. rewrite length_append.
  destruct (byte_facts b Hb) as (_ & H2 & _). lia.
Qed.

Lemma dec_rendering_upper (uid : list Z) :
  Forall is_byte uid -> toUpperCase (dec_rendering uid) = dec_rendering uid.
Proof.
  induction 1 as [| b rest Hb _ IH]; [reflexivity |].
  cbn [dec_rendering]. rewrite toUpperCase_append, IH.
  destruct (byte_facts b Hb) as (-> & _ & _). reflexivity.
Qed.

(** The decimal string is the hexadecimal one only for identifiers all
    of whose bytes are at most 9. *)
Lemma dec_is_hex_small (uid : list Z) :
  Forall is_byte uid ->
  dec_rendering uid = hex_rendering uid ->
  Forall (fun b => (b <= 9)%Z) uid.
Proof.
  induction 1 as [| b rest Hb Hrest IH]; intros Heq; [constructor |].
  cbn [dec_rendering hex_rendering] in Heq.
  destruct (byte_facts b Hb) as (_ & H2 & Hsmall).
  pose proof (dec_rendering_length rest Hrest) as Hd.
  pose proof (hex_rendering_length rest) as Hh.
  pose proof (f_equal String.length Heq) as Hlen.
  rewrite !length_append in Hlen.
  change (String.length (hex_byte b)) with 2%nat in Hlen.
  assert (Hl : String.length (readUID_byte b) = String.length (hex_byte b))
    by (change (String.length (hex_byte b)) with 2%nat; lia).
  destruct (append_inj _ _ _ _ Hl Heq) as [Eb Er].
  constructor; [apply Hsmall; exact Eb | apply IH; exact Er].
Qed.

End Strings.

Lemma anticoll_uid_bytes (chip : device) (self : MFRC522) (t : trace) :
  Forall is_byte (anti_uid (fst (anticoll chip self t))).
Proof.
  rewrite anticoll_unfold. cbn [fst].
  pose proof (anticoll_exchange_bytes chip self t) as Hb.
  destruct (anticoll_check_cases (fst (anticoll_exchange chip self t)))
    as [(_ & _ & -> & _) | [_ ->]]; [| constructor].
  rewrite <- (firstn_skipn 4) in Hb. apply Forall_app in Hb. exact (proj1 Hb).
Qed.

Lemma readUID_anticoll_bytes (chip : device) (self : MFRC522) (t : trace) :
  Forall is_byte (anti_uid (fst (readUID_anticoll chip self t))).
Proof. unfold readUID_anticoll. apply anticoll_uid_bytes. Qed.

Lemma readUID_unfold (chip : device) (self : MFRC522) (t : trace) :
  readUID chip (Some self) t
  = if negb (req_status (fst (readUID_request chip self t)) =? 0)
    then (""%string, snd (readUID_request chip self t))
    else if anti_status (fst (readUID_anticoll chip self t)) =? 0
         then (toUpperCase
                 (readUID_digits (anti_uid (fst (readUID_anticoll chip self t))) ""),
               snd (readUID_anticoll chip self t))
         else (""%string, snd (readUID_anticoll chip self t)).
Proof.
  unfold readUID, readUID_anticoll, readUID_request, bind.
  destruct (request chip self PICC_REQIDL t) as [q t1]. cbn [fst snd].
  destruct (negb (req_status q =? 0)); [reflexivity |].
  destruct (anticoll chip self t1) as [a t2]. cbn [fst snd].
  destruct (anti_status a =? 0); reflexivity.
Qed.

(** C10. When both calls succeed, [readUID] returns, for each byte of the
    uid in order, the decimal digits of [toString()], preceded by "0" when
    the byte is below 16; whenever some byte is above 9 this string is not
    the hexadecimal rendering of the uid.  The byte 0xAB gives "171",
    where its hexadecimal digits are "AB". *)
Theorem readUID_decimal_not_hex (chip : device) (self : MFRC522) (t : trace) :
  req_status (fst (readUID_request chip self t)) = 0 ->
  anti_status (fst (readUID_anticoll chip self t)) = 0 ->
  let uid := anti_uid (fst (readUID_anticoll chip self t)) in
  fst (readUID chip (Some self) t) = dec_rendering uid /\
  (Exists (fun b => 9 < b) uid ->
   fst (readUID chip (Some self) t) <> hex_rendering uid) /\
  readUID_byte 0xAB = "171"%string /\
  hex_byte 0xAB = "AB"%string.
Proof.
  intros Hreq Hanti. cbv zeta.
  pose proof (readUID_anticoll_bytes chip self t) as Hbytes.
  assert (Hrun : fst (readUID chip (Some self) t)
                 = dec_rendering (anti_uid (fst (readUID_anticoll chip self t)))).
  { rewrite readUID_unfold, Hreq, Hanti. cbn [Z.eqb negb fst].
    rewrite readUID_digits_run. cbn [append].
    apply dec_rendering_upper. exact Hbytes. }
  split; [exact Hrun |]. split; [| split; reflexivity].
  intros Hex Heq. rewrite Hrun in Heq.
  pose proof (dec_is_hex_small _ Hbytes Heq) as Hsmall.
  apply Exists_exists in Hex. destruct Hex as (b & Hin & Hb).
  pose proof (proj1 (Forall_forall _ _) Hsmall b Hin) as Hle. cbn in Hle. lia.
Qed.

Lemma readUID_decimal_not_hex_witness :
  fst (readUID chip_card (Some mfrc) []) = "17101207100"%string /\
  fst (readUID chip_card (Some mfrc) [])
  <> hex_rendering (anti_uid (fst (readUID_anticoll chip_card mfrc []))).
Proof.
  assert (Hreq : req_status (fst (readUID_request chip_card mfrc [])) = 0)
    by (vm_compute; reflexivity).
  assert (Hanti : anti_status (fst (readUID_anticoll chip_card mfrc [])) = 0)
    by (vm_compute; reflexivity).
  destruct (readUID_decimal_not_hex chip_card mfrc [] Hreq Hanti)
    as (_ & Hne & _).
  split; [vm_compute; reflexivity |].
  apply Hne.
  assert (E : anti_uid (fst (readUID_anticoll chip_card mfrc []))
              = [0xAB; 0x0C; 0x07; 0x64])
    by (vm_compute; reflexivity).
  rewrite E. apply Exists_cons_hd. reflexivity.
Defined.

(** * Further properties of the driver *)

(** ** Bus discipline *)

Lemma reads_so_far_app (t u : trace) :
  reads_so_far (t ++ u) = (reads_so_far t + reads_so_far u)%nat.
Proof.
  induction t as [| e t IH]; [reflexivity |].
  destruct e; cbn; rewrite IH; reflexivity.
Qed.

Lemma reads_so_far_reg_reads (self : MFRC522) (reg : Z) (vs : list Z) :
  reads_so_far (reg_reads self reg vs) = List.length vs.
Proof.
  induction vs as [| v vs IH]; [reflexivity |].
  rewrite reg_reads_cons, reads_so_far_app, IH. reflexivity.
Qed.

Section Talks.

Variable chip : device.
Variable self : MFRC522.

Lemma talks_ret {A : Type} (a : A) : talks self 0 (ret a).
Proof.
  intros t. exists []. cbn. rewrite app_nil_r.
  split; [reflexivity | split; [constructor | lia]].
Qed.

Lemma talks_bind {A B : Type} (k1 k2 : nat) (m : io A) (f : A -> io B) :
  talks self k1 m -> (forall a : A, talks self k2 (f a)) ->
  talks self (k1 + k2) (bind m f).
Proof.
  intros Hm Hf t. unfold bind.
  destruct (Hm t) as (e1 & H1 & Ha1 & Hr1).
  destruct (m t) as [a t1]. cbn [snd] in H1. subst t1.
  destruct (Hf a (t ++ e1)) as (e2 & H2 & Ha2 & Hr2).
  exists (e1 ++ e2). rewrite H2, app_assoc.
  split; [reflexivity | split].
  - apply Forall_app. split; assumption.
  - rewrite reads_so_far_app. lia.
Qed.

Lemma talks_weaken {A : Type} (k k' : nat) (m : io A) :
  talks self k m -> (k <= k')%nat -> talks self k' m.
Proof.
  intros Hm Hle t. destruct (Hm t) as (e & H & Ha & Hr).
  exists e. split; [exact H | split; [exact Ha | lia]].
Qed.

Lemma talks_if {A : Type} (k1 k2 : nat) (c : bool) (m1 m2 : io A) :
  talks self k1 m1 -> talks self k2 m2 ->
  talks self (Nat.max k1 k2) (if c then m1 else m2).
Proof.
  intros H1 H2. destruct c;
    [apply (talks_weaken k1) | apply (talks_weaken k2)]; try assumption; lia.
Qed.

Lemma talks_writeRegister (reg value : Z) :
  talks self 0 (writeRegister self reg value).
Proof.
  intros t. exists (reg_write self reg value).
  split; [reflexivity | split; [| cbn; lia]].
  repeat constructor.
Qed.

Lemma talks_readRegister (reg : Z) : talks self 1 (readRegister chip self reg).
Proof.
  intros t. rewrite readRegister_run. cbn [snd].
  exists (reg_read self reg (answer chip self reg t)).
  split; [reflexivity | split; [| cbn; lia]].
  repeat constructor.
Qed.

Lemma talks_setRegisterBitMask (reg mask : Z) :
  talks self 1 (setRegisterBitMask chip self reg mask).
Proof.
  unfold setRegisterBitMask. apply (talks_bind 1 0).
  - apply talks_readRegister.
  - intros tmp. apply talks_writeRegister.
Qed.

Lemma talks_clearRegisterBitMask (reg mask : Z) :
  talks self 1 (clearRegisterBitMask chip self reg mask).
Proof.
  unfold clearRegisterBitMask. apply (talks_bind 1 0).
  - apply talks_readRegister.
  - intros tmp. apply talks_writeRegister.
Qed.

Lemma talks_toCard_fill (sendData : list Z) :
  talks self 0 (toCard_fill self sendData).
Proof.
  induction sendData as [| b rest IH]; cbn [toCard_fill].
  - apply talks_ret.
  - apply (talks_bind 0 0); [apply talks_writeRegister | intros _; exact IH].
Qed.

Lemma talks_toCard_send (command irqEn : Z) (sendData : list Z) :
  talks self 3 (toCard_send chip self command irqEn sendData).
Proof.
  unfold toCard_send.
  apply (talks_bind 0 3); [apply talks_writeRegister | intros _].
  apply (talks_bind 1 2); [apply talks_clearRegisterBitMask | intros _].
  apply (talks_bind 1 1); [apply talks_setRegisterBitMask | intros _].
  apply (talks_bind 0 1); [apply talks_writeRegister | intros _].
  apply (talks_bind 0 1); [apply talks_toCard_fill | intros _].
  apply (talks_bind 0 1); [apply talks_writeRegister | intros _].
  apply (talks_if 1 0); [apply talks_setRegisterBitMask | apply talks_ret].
Qed.

Lemma talks_toCard_wait (waitIRq : Z) (i : nat) (n : Z) :
  talks self i (toCard_wait chip self waitIRq i n).
Proof.
  revert n. induction i as [| i IH]; intros n; cbn [toCard_wait].
  - apply talks_ret.
  - apply (talks_bind 1 i); [apply talks_readRegister | intros v].
    apply (talks_weaken (Nat.max 0 (Nat.max 0 i))); [| lia].
    apply talks_if; [apply talks_ret |].
    apply talks_if; [apply talks_ret | apply IH].
Qed.

Lemma talks_toCard_drain (count : nat) (backData : list Z) :
  talks self count (toCard_drain chip self count backData).
Proof.
  revert backData. induction count as [| count IH]; intros backData;
    cbn [toCard_drain].
  - apply talks_ret.
  - apply (talks_bind 1 count); [apply talks_readRegister | intros b; apply IH].
Qed.

Lemma clamp_level_to_nat (n : Z) : (Z.to_nat (clamp_level n) <= 16)%nat.
Proof.
  unfold clamp_level. destruct (n =? 0); [cbn; lia |].
  destruct (n >? 16) eqn:E; [cbn; lia |].
  rewrite Z.gtb_ltb in E. apply Z.ltb_ge in E. lia.
Qed.

Lemma talks_toCard_recv (command irqEn : Z) (i : nat) (n : Z) :
  talks self 19 (toCard_recv chip self command irqEn i n).
Proof.
  unfold toCard_recv.
  apply (talks_weaken (Nat.max 19 0)); [| lia].
  apply talks_if; [| apply talks_ret].
  apply (talks_bind 1 18); [apply talks_readRegister | intros err].
  apply (talks_weaken (Nat.max 18 0)); [| lia].
  apply talks_if; [| apply talks_ret].
  apply (talks_weaken (Nat.max 18 0)); [| lia].
  apply talks_if; [| apply talks_ret].
  apply (talks_bind 1 17); [apply talks_readRegister | intros lvl].
  apply (talks_bind 1 16); [apply talks_readRegister | intros ctl].
  apply (talks_bind 16 0); [| intros backData; apply talks_ret].
  apply (talks_weaken (Z.to_nat (clamp_level lvl)));
    [apply talks_toCard_drain | apply clamp_level_to_nat].
Qed.

Lemma talks_toCard (command : Z) (sendData : list Z) :
  talks self 2022 (toCard chip self command sendData).
Proof.
  unfold toCard. destruct (toCard_masks command) as [irqEn waitIRq].
  apply (talks_weaken (3 + (2000 + 19))); [| lia].
  apply talks_bind; [apply talks_toCard_send | intros _].
  apply talks_bind; [apply talks_toCard_wait | intros [i n]].
  apply talks_toCard_recv.
Qed.

Lemma talks_request (reqMode : Z) :
  talks self 2022 (request chip self reqMode).
Proof.
  unfold request.
  apply (talks_bind 0 2022); [apply talks_writeRegister | intros _].
  apply (talks_weaken (2022 + 0)); [| lia].
  apply talks_bind; [apply talks_toCard | intros r; apply talks_ret].
Qed.

Lemma talks_anticoll : talks self 2022 (anticoll chip self).
Proof.
  unfold anticoll.
  apply (talks_bind 0 2022); [apply talks_writeRegister | intros _].
  apply (talks_weaken (2022 + 0)); [| lia].
  apply talks_bind; [apply talks_toCard | intros r; apply talks_ret].
Qed.

Lemma talks_antennaOn : talks self 2 (antennaOn chip self).
Proof.
  unfold antennaOn.
  apply (talks_bind 1 1); [apply talks_readRegister | intros temp].
  apply (talks_if 1 0); [apply talks_setRegisterBitMask | apply talks_ret].
Qed.

Lemma talks_MFRC522_init : talks self 2 (MFRC522_init chip self).
Proof.
  unfold MFRC522_init, pause.
  repeat (apply (talks_bind 0 2);
          [first [apply talks_writeRegister | apply talks_ret] | intros _]).
  apply talks_antennaOn.
Qed.

End Talks.

(** X1. Whatever the command, the payload and the chip, [toCard] only
    appends to the bus trace, addresses every transaction to its own
    chip, and reads at most 2022 times: 3 in the read-modify-writes, 2000
    in the wait loop and 19 afterwards. *)
Theorem toCard_bus_budget
  (chip : device) (self : MFRC522) (command : Z) (sendData : list Z) (t : trace) :
  exists ext : trace,
    snd (toCard chip self command sendData t) = t ++ ext /\
    Forall (fun e => event_address e = address self) ext /\
    (reads_so_far ext <= 2022)%nat.
Proof.
  revert t. change (talks self 2022 (toCard chip self command sendData)).
  unfold toCard. destruct (toCard_masks command) as [irqEn waitIRq].
  apply (talks_weaken self (3 + (2000 + 19))); [| lia].
  apply talks_bind; [apply talks_toCard_send | intros _].
  apply talks_bind; [apply talks_toCard_wait | intros [i n]].
  apply talks_toCard_recv.
Qed.

(** X2. [readUID] only appends to the bus trace, addresses every
    transaction to the chip of the module-level driver and reads at most
    4044 times; without a driver it leaves the bus alone and returns the
    empty string. *)
Theorem readUID_bus_budget (chip : device) (_instance : option MFRC522) (t : trace) :
  match _instance with
  | None => readUID chip None t = (""%string, t)
  | Some self =>
      exists ext : trace,
        snd (readUID chip (Some self) t) = t ++ ext /\
        Forall (fun e => event_address e = address self) ext /\
        (reads_so_far ext <= 4044)%nat
  end.
Proof.
  destruct _instance as [self |]; [| reflexivity].
  revert t. change (talks self 4044 (readUID chip (Some self))).
  unfold readUID.
  apply (talks_weaken self (2022 + 2022)); [| lia].
  apply talks_bind; [apply talks_request | intros q].
  apply (talks_weaken self (Nat.max 0 2022)); [| lia].
  apply talks_if; [apply talks_ret |].
  apply (talks_weaken self (2022 + 0)); [| lia].
  apply talks_bind; [apply talks_anticoll | intros a].
  apply (talks_weaken self (Nat.max 0 0)); [| lia].
  apply talks_if; apply talks_ret.
Qed.

Lemma bit_length_range (lvl ctl : Z) :
  is_byte lvl -> -7 <= bit_length lvl ctl <= 2040.
Proof.
  unfold is_byte, bit_length. intros Hl.
  pose proof (land_7_range ctl) as Hv.
  destruct (Z.land ctl 7 =? 0) eqn:E; [lia |].
  apply Z.eqb_neq in E. lia.
Qed.

(** X3. Every result of [toCard] has status 0, 1 or 2, at most 16 data
    bytes, each of them a byte, and a bit length between -7 and 2040; a
    result of status 2 has no data and bit length 0. *)
Theorem toCard_result_shape
  (chip : device) (self : MFRC522) (command : Z) (sendData : list Z) (t : trace) :
  let r := fst (toCard chip self command sendData t) in
  (card_status r = 0 \/ card_status r = 1 \/ card_status r = 2) /\
  (List.length (card_data r) <= 16)%nat /\
  Forall is_byte (card_data r) /\
  -7 <= card_backLen r <= 2040 /\
  (card_status r = 2 -> card_data r = [] /\ card_backLen r = 0).
Proof.
  cbv zeta.
  destruct (toCard_outcome chip self command sendData t)
    as [_ Hr _ | err _ _ _ Hr _ | err _ _ _ _ Hr _
        | err lvl ctl _ _ _ _ Hl _ Hs Hbl Hlen Hb _].
  - rewrite Hr. cbn. repeat split; auto; try lia.
  - rewrite Hr. cbn. repeat split; auto; try lia.
  - rewrite Hr. cbn [card_status card_data card_backLen List.length].
    destruct (completion_status_cases
                (snd (fst (toCard_polled chip self command sendData t)))
                (fst (toCard_masks command))) as [E | E]; rewrite E;
      repeat split; auto; try lia; try discriminate.
  - rewrite Hs, Hbl, Hlen.
    pose proof (clamp_level_to_nat lvl) as Hc.
    pose proof (bit_length_range lvl ctl Hl) as Hr.
    split.
    { destruct (completion_status_cases
                  (snd (fst (toCard_polled chip self command sendData t)))
                  (fst (toCard_masks command))) as [E | E]; rewrite E; auto. }
    split; [exact Hc |]. split; [exact Hb |]. split; [exact Hr |].
    intros E. exfalso.
    destruct (completion_status_cases
                (snd (fst (toCard_polled chip self command sendData t)))
                (fst (toCard_masks command))) as [E' | E'];
      rewrite E' in E; discriminate E.
Qed.

(** The last reading of the wait loop fired whenever budget is left. *)
Lemma toCard_polled_fired
  (chip : device) (self : MFRC522) (command : Z) (sendData : list Z) (t : trace) :
  fst (fst (toCard_polled chip self command sendData t)) <> O ->
  fires (snd (toCard_masks command))
    (snd (fst (toCard_polled chip self command sendData t))) = true /\
  exists t0 : trace,
    snd (toCard_polled chip self command sendData t)
    = t0 ++ reg_read self ComIrqReg
              (snd (fst (toCard_polled chip self command sendData t))).
Proof.
  unfold toCard_polled. intros Hleft.
  destruct (toCard_wait_run chip self (snd (toCard_masks command)) 2000 0
              (snd (toCard_send chip self command
                      (fst (toCard_masks command)) sendData t)))
    as (vs & Htr & _ & Hn & Hex).
  destruct Hex as [quiet v Hvs _ Hf _ _ | _ _ H0]; [| contradiction].
  rewrite Hn, Htr, Hvs, last_last. split; [exact Hf |].
  eexists. rewrite reg_reads_app, app_assoc. cbn [reg_reads flat_map].
  rewrite app_nil_r. reflexivity.
Qed.

Lemma land_mask_bit0 (n irqEn : Z) :
  Z.land (Z.land n irqEn) 1 = Z.land n (Z.land irqEn 1).
Proof. rewrite Z.land_assoc. reflexivity. Qed.

(** X4. A Transceive that returns status 0 left its wait loop on a
    reading of the interrupt-request register with a wait-mask bit (0x30)
    set and the timer bit clear; one that returns status 1 left it on a
    reading with the timer bit set; in both cases budget was left. *)
Theorem toCard_transceive_status_by_poll
  (chip : device) (self : MFRC522) (sendData : list Z) (t : trace) :
  let r := fst (toCard chip self PCD_TRANSCEIVE sendData t) in
  let left := fst (fst (toCard_polled chip self PCD_TRANSCEIVE sendData t)) in
  let n := snd (fst (toCard_polled chip self PCD_TRANSCEIVE sendData t)) in
  (card_status r <> 2 ->
   left <> O /\
   exists t0 : trace,
     snd (toCard_polled chip self PCD_TRANSCEIVE sendData t)
     = t0 ++ reg_read self ComIrqReg n) /\
  (card_status r = 0 -> Z.land n 0x30 <> 0 /\ Z.land n 0x01 = 0) /\
  (card_status r = 1 -> Z.land n 0x01 <> 0).
Proof.
  cbv zeta.
  pose proof (toCard_polled_fired chip self PCD_TRANSCEIVE sendData t) as Hfired.
  change (snd (toCard_masks PCD_TRANSCEIVE)) with 0x30 in Hfired.
  destruct (toCard_outcome chip self PCD_TRANSCEIVE sendData t)
    as [_ Hr _ | err _ _ _ Hr _ | err _ _ _ Hne _ _
        | err lvl ctl Hleft _ _ _ _ _ Hs _ _ _ _].
  1-2: rewrite Hr; cbn [failed card_status];
       (split; [intros H; exfalso; apply H; reflexivity
               | split; intros H; discriminate H]).
  - exfalso. apply Hne. reflexivity.
  - destruct (Hfired Hleft) as [Hf Htr].
    change (fst (toCard_masks PCD_TRANSCEIVE)) with 0x77 in Hs.
    remember (snd (fst (toCard_polled chip self PCD_TRANSCEIVE sendData t)))
      as n eqn:En. clear En.
    rewrite Hs. unfold completion_status, fires, truthy in *.
    rewrite land_mask_bit0 in *. change (Z.land 119 1) with 1 in *.
    split; [intros _; split; assumption |].
    destruct (Z.land n 1 =? 0) eqn:E1; cbn [negb] in *.
    + apply Z.eqb_eq in E1. split; [| intros H; discriminate H].
      intros _. split; [| exact E1].
      rewrite orb_false_r in Hf. apply negb_true_iff in Hf.
      apply Z.eqb_neq in Hf. exact Hf.
    + apply Z.eqb_neq in E1. split; [intros H; discriminate H |].
      intros _. exact E1.
Qed.

(** X5. For a command other than Transceive, [toCard] returns no data and
    bit length 0 with status 0 or 2, and after its wait loop it reads at
    most the error register: never the FIFO.  For a command that is not
    Authenticate either, status 0 means that the timer bit ended the
    wait. *)
Theorem toCard_without_transceive
  (chip : device) (self : MFRC522) (command : Z) (sendData : list Z) (t : trace) :
  command <> PCD_TRANSCEIVE ->
  let r := fst (toCard chip self command sendData t) in
  let polled := toCard_polled chip self command sendData t in
  card_data r = [] /\ card_backLen r = 0 /\
  (card_status r = 0 \/ card_status r = 2) /\
  (snd (toCard chip self command sendData t) = snd polled \/
   exists err : Z,
     snd (toCard chip self command sendData t)
     = snd polled ++ reg_read self ErrorReg err) /\
  (command <> PCD_AUTHENT -> card_status r = 0 ->
   Z.land (snd (fst polled)) 0x01 <> 0).
Proof.
  intros Hcmd. cbv zeta.
  pose proof (toCard_polled_fired chip self command sendData t) as Hfired.
  assert (Hirq : Z.land (fst (toCard_masks command)) 1 = 0).
  { unfold toCard_masks. destruct (command =? PCD_AUTHENT); [reflexivity |].
    destruct (command =? PCD_TRANSCEIVE) eqn:Ec; [| reflexivity].
    apply Z.eqb_eq in Ec. contradiction. }
  assert (Hst : completion_status
                  (snd (fst (toCard_polled chip self command sendData t)))
                  (fst (toCard_masks command)) = 0).
  { unfold completion_status, truthy.
    rewrite land_mask_bit0, Hirq, Z.land_0_r. reflexivity. }
  destruct (toCard_outcome chip self command sendData t)
    as [_ Hr Htr | err _ _ _ Hr Htr | err Hleft _ _ _ Hr Htr
        | err lvl ctl _ _ _ Hc _ _ _ _ _ _ _]; [| | | contradiction].
  - rewrite Hr, Htr. cbn [failed card_status card_data card_backLen].
    split; [reflexivity | split; [reflexivity | split; [auto | split; [auto |]]]].
    intros _ H; discriminate H.
  - rewrite Hr, Htr. cbn [failed card_status card_data card_backLen].
    split; [reflexivity | split; [reflexivity | split; [auto | split; [eauto |]]]].
    intros _ H; discriminate H.
  - rewrite Hr, Htr, Hst. cbn [card_status card_data card_backLen].
    split; [reflexivity | split; [reflexivity | split; [auto | split; [eauto |]]]].
    intros Hauth _. destruct (Hfired Hleft) as [Hf _].
    assert (Hw : snd (toCard_masks command) = 0).
    { unfold toCard_masks.
      destruct (command =? PCD_AUTHENT) eqn:Ea;
        [apply Z.eqb_eq in Ea; contradiction |].
      destruct (command =? PCD_TRANSCEIVE) eqn:Ec; [| reflexivity].
      apply Z.eqb_eq in Ec. contradiction. }
    rewrite Hw in Hf. unfold fires, truthy in Hf.
    rewrite Z.land_0_r in Hf. cbn [Z.eqb negb orb] in Hf.
    apply negb_true_iff, Z.eqb_neq in Hf. exact Hf.
Qed.

Lemma toCard_without_transceive_witness :
  card_data (fst (toCard chip_timer mfrc PCD_AUTHENT [PICC_REQIDL] [])) = [].
Proof.
  assert (H : PCD_AUTHENT <> PCD_TRANSCEIVE) by discriminate.
  exact (proj1 (toCard_without_transceive chip_timer mfrc PCD_AUTHENT
                  [PICC_REQIDL] [] H)).
Defined.

(** ** Request *)

(** X6. When [request] succeeds, its exchange returned exactly two bytes,
    and the reported type is the first of them. *)
Theorem request_two_bytes
  (chip : device) (self : MFRC522) (reqMode : Z) (t : trace) :
  req_status (fst (request chip self reqMode t)) = 0 ->
  exists b0 b1 : Z,
    card_data (fst (request_exchange chip self reqMode t)) = [b0; b1] /\
    is_byte b0 /\ is_byte b1 /\
    req_type (fst (request chip self reqMode t)) = Some b0.
Proof.
  rewrite request_unfold. cbn [fst req_status req_type]. intros H.
  pose proof (request_exchange_bytes chip self reqMode t) as Hb.
  assert (Hok : card_status (fst (request_exchange chip self reqMode t)) <> 2
                /\ card_backLen (fst (request_exchange chip self reqMode t)) = 16).
  { destruct (card_status (fst (request_exchange chip self reqMode t)) =? 2) eqn:Es;
      [discriminate H |]. apply Z.eqb_neq in Es.
    destruct (card_backLen (fst (request_exchange chip self reqMode t)) =? 16) eqn:Eb;
      [| discriminate H]. apply Z.eqb_eq in Eb. auto. }
  destruct Hok as [Hok Hbits]. unfold request_exchange in *.
  destruct (toCard_transceive_data chip self [reqMode] _ Hok)
    as (t0 & lvl & ctl & _ & Hl & Hbl & Hlen).
  rewrite Hbits in Hbl.
  assert (Hlvl : lvl = 2).
  { unfold bit_length in Hbl. pose proof (land_7_range ctl) as Hv.
    destruct (Z.land ctl 7 =? 0) eqn:E; [lia |].
    apply Z.eqb_neq in E. lia. }
  subst lvl. change (Z.to_nat (clamp_level 2)) with 2%nat in Hlen.
  destruct (card_data (fst (toCard chip self PCD_TRANSCEIVE [reqMode]
                              (snd (writeRegister self BitFramingReg 7 t)))))
    as [| b0 [| b1 [| b2 rest]]]; try discriminate Hlen.
  exists b0, b1. inversion Hb as [| x l Hb0 Hb']; subst.
  inversion Hb' as [| x l Hb1 _]; subst. auto.
Qed.

Lemma request_two_bytes_witness :
  exists b0 b1 : Z,
    card_data (fst (request_exchange chip_atqa mfrc PICC_REQIDL [])) = [b0; b1] /\
    is_byte b0 /\ is_byte b1 /\
    req_type (fst (request chip_atqa mfrc PICC_REQIDL [])) = Some b0.
Proof.
  apply (request_two_bytes chip_atqa mfrc PICC_REQIDL []).
  vm_compute. reflexivity.
Defined.

(** ** Bit-mask helpers *)

Lemma uint8_testbit (x i : Z) :
  0 <= i < 8 -> Z.testbit (uint8 x) i = Z.testbit x i.
Proof.
  intros Hi. unfold uint8. change 256 with (2 ^ 8).
  apply Z.mod_pow2_bits_low. lia.
Qed.

Lemma setRegisterBitMask_written
  (chip : device) (self : MFRC522) (reg mask : Z) (t : trace) :
  exists v w : Z,
    snd (setRegisterBitMask chip self reg mask t)
    = t ++ reg_read self reg v
        ++ [I2cWriteBuffer (address self) [uint8 reg; w]] /\
    is_byte v /\ is_byte w /\
    forall i : Z, 0 <= i < 8 ->
      Z.testbit w i = (Z.testbit v i || Z.testbit mask i)%bool.
Proof.
  rewrite setRegisterBitMask_run. cbn [snd].
  exists (answer chip self reg t), (uint8 (Z.lor (answer chip self reg t) mask)).
  split; [reflexivity |]. split; [apply answer_is_byte |].
  split; [apply uint8_is_byte |].
  intros i Hi. rewrite (uint8_testbit _ i Hi). apply Z.lor_spec.
Qed.

(** X7. [setRegisterBitMask] reads the register once and writes it once;
    in the byte written, each of the eight bits is set exactly when it
    was set in the byte read or is set in the mask. *)
Theorem setRegisterBitMask_bits
  (chip : device) (self : MFRC522) (reg mask : Z) (t : trace) :
  exists v w : Z,
    snd (setRegisterBitMask chip self reg mask t)
    = t ++ reg_read self reg v
        ++ [I2cWriteBuffer (address self) [uint8 reg; w]] /\
    is_byte v /\ is_byte w /\
    forall i : Z, 0 <= i < 8 ->
      Z.testbit w i = (Z.testbit v i || Z.testbit mask i)%bool.
Proof.
  rewrite setRegisterBitMask_run. cbn [snd].
  exists (answer chip self reg t), (uint8 (Z.lor (answer chip self reg t) mask)).
  split; [reflexivity |]. split; [apply answer_is_byte |].
  split; [apply uint8_is_byte |].
  intros i Hi. rewrite (uint8_testbit _ i Hi). apply Z.lor_spec.
Qed.

(** X8. [clearRegisterBitMask] reads the register once and writes it
    once; in the byte written, each of the eight bits is set exactly when
    it was set in the byte read and is clear in the mask. *)
Theorem clearRegisterBitMask_bits
  (chip : device) (self : MFRC522) (reg mask : Z) (t : trace) :
  exists v w : Z,
    snd (clearRegisterBitMask chip self reg mask t)
    = t ++ reg_read self reg v
        ++ [I2cWriteBuffer (address self) [uint8 reg; w]] /\
    is_byte v /\ is_byte w /\
    forall i : Z, 0 <= i < 8 ->
      Z.testbit w i = (Z.testbit v i && negb (Z.testbit mask i))%bool.
Proof.
  rewrite clearRegisterBitMask_run. cbn [snd].
  exists (answer chip self reg t),
    (uint8 (Z.land (answer chip self reg t) (Z.lnot mask))).
  split; [reflexivity |]. split; [apply answer_is_byte |].
  split; [apply uint8_is_byte |].
  intros i Hi. rewrite (uint8_testbit _ i Hi), Z.land_spec, Z.lnot_spec by lia.
  reflexivity.
Qed.

(** ** Initialisation *)

Lemma testbit_3_high (i : Z) : 2 <= i -> Z.testbit 3 i = false.
Proof. intros Hi. change 3 with (Z.ones 2). apply Z.ones_spec_high. lia. Qed.

(** X9. [antennaOn] reads the transmit-control register.  When either of
    its two low bits is set it does nothing more; when both are clear it
    reads the register again and writes back that second reading with the
    two low bits set and the six others unchanged. *)
Theorem antennaOn_cases (chip : device) (self : MFRC522) (t : trace) :
  exists temp : Z,
    is_byte temp /\
    ((Z.land temp 0x03 <> 0 /\
      snd (antennaOn chip self t) = t ++ reg_read self TxControlReg temp)
     \/
     (Z.land temp 0x03 = 0 /\
      exists tmp w : Z,
        snd (antennaOn chip self t)
        = t ++ reg_read self TxControlReg temp
            ++ reg_read self TxControlReg tmp
            ++ [I2cWriteBuffer (address self) [TxControlReg; w]] /\
        is_byte w /\
        Z.testbit w 0 = true /\ Z.testbit w 1 = true /\
        forall i : Z, 2 <= i < 8 -> Z.testbit w i = Z.testbit tmp i)).
Proof.
  unfold antennaOn, bind. rewrite readRegister_run.
  pose proof (answer_is_byte chip self TxControlReg t) as Hb.
  remember (answer chip self TxControlReg t) as temp eqn:Et. clear Et.
  exists temp. split; [exact Hb |].
  destruct (Z.land temp 3 =? 0) eqn:E.
  - apply Z.eqb_eq in E. right. split; [exact E |].
    destruct (setRegisterBitMask_written chip self TxControlReg 0x03
                (t ++ reg_read self TxControlReg temp))
      as (tmp & w & Htr & _ & Hw & Hbits).
    exists tmp, w. rewrite Htr, <- app_assoc.
    split; [reflexivity |]. split; [exact Hw |].
    split; [rewrite Hbits by lia; apply orb_true_r |].
    split; [rewrite Hbits by lia; apply orb_true_r |].
    intros i Hi. rewrite Hbits by lia.
    rewrite testbit_3_high by lia. apply orb_false_r.
  - apply Z.eqb_neq in E. left. split; [exact E | reflexivity].
Qed.



(** ** The payload *)

(** X12. For every command and every payload of integers, of any length
    and of any size, what [toCard] writes to the FIFO data register is
    the payload in order, each integer reduced modulo 256. *)
Theorem toCard_fifo_truncates
  (chip : device) (self : MFRC522) (command : Z) (sendData : list Z) (t : trace) :
  fifo_written (snd (toCard chip self command sendData t))
  = fifo_written t ++ map uint8 sendData.
Proof.
  destruct (toCard_trace_shape chip self command sendData t)
    as (post & Htr & Hpost).
  rewrite Htr, !fifo_written_app.
  rewrite fifo_written_send_prefix, fifo_written_fill, Hpost.
  rewrite !fifo_written_reg_write_other by other_register.
  rewrite app_nil_r. reflexivity.
Qed.

(** ** The string of [readUID] *)

Lemma anticoll_uid_length (chip : device) (self : MFRC522) (t : trace) :
  anti_status (fst (anticoll chip self t)) = 0 ->
  List.length (anti_uid (fst (anticoll chip self t))) = 4%nat.
Proof.
  rewrite anticoll_unfold. cbn [fst].
  destruct (anticoll_check_cases (fst (anticoll_exchange chip self t)))
    as [(_ & Hl & -> & _) | [_ ->]].
  - intros _. rewrite length_firstn, Hl. reflexivity.
  - intros H. discriminate H.
Qed.

Section Digits.

Local Open Scope string_scope.

Lemma all_digits_append (a b : string) :
  all_digits (a ++ b) = (all_digits a && all_digits b)%bool.
Proof.
  induction a as [| c a IH]; [reflexivity |].
  cbn. rewrite IH. apply andb_assoc.
Qed.

Lemma byte_shape_check_all :
  forallb byte_shape_check (map Z.of_nat (seq 0 256)) = true.
Proof. vm_compute. reflexivity. Qed.

Lemma byte_shape (b : Z) :
  is_byte b ->
  all_digits (readUID_byte b) = true /\
  (2 <= String.length (readUID_byte b) <= 3)%nat /\
  ((b <= 9)%Z -> readUID_byte b = hex_byte b).
Proof.
  intros Hb.
  assert (Hin : In b (map Z.of_nat (seq 0 256))).
  { rewrite <- (Z2Nat.id b) by apply Hb. apply in_map, in_seq.
    unfold is_byte in Hb. lia. }
  pose proof (proj1 (forallb_forall _ _) byte_shape_check_all b Hin) as Hc.
  unfold byte_shape_check in Hc.
  apply andb_true_iff in Hc. destruct Hc as [Hc H4].
  apply andb_true_iff in Hc. destruct Hc as [Hc H3].
  apply andb_true_iff in Hc. destruct Hc as [H1 H2].
  apply Nat.leb_le in H2, H3.
  split; [exact H1 |]. split; [lia |].
  intros Hle. apply orb_true_iff in H4. destruct H4 as [H4 | H4].
  - apply negb_true_iff, Z.leb_gt in H4. lia.
  - apply String.eqb_eq. exact H4.
Qed.

Lemma dec_rendering_shape (uid : list Z) :
  Forall is_byte uid ->
  all_digits (dec_rendering uid) = true /\
  (2 * List.length uid <= String.length (dec_rendering uid)
   <= 3 * List.length uid)%nat.
Proof.
  induction 1 as [| b rest Hb _ IH]; [cbn; split; [reflexivity | lia] |].
  cbn [dec_rendering List.length].
  destruct (byte_shape b Hb) as (Hd & Hlen & _). destruct IH as [IHd IHlen].
  rewrite all_digits_append, length_append, Hd, IHd.
  split; [reflexivity | lia].
Qed.

Lemma small_is_hex (uid : list Z) :
  Forall is_byte uid -> Forall (fun b => (b <= 9)%Z) uid ->
  dec_rendering uid = hex_rendering uid.
Proof.
  induction 1 as [| b rest Hb _ IH]; intros Hs; [reflexivity |].
  inversion Hs as [| x l Hle Hs']; subst.
  cbn [dec_rendering hex_rendering].
  destruct (byte_shape b Hb) as (_ & _ & Heq).
  rewrite (Heq Hle), (IH Hs'). reflexivity.
Qed.

Lemma readUID_string_run (uid : list Z) :
  Forall is_byte uid -> readUID_string uid = dec_rendering uid.
Proof.
  intros Hb. unfold readUID_string. rewrite readUID_digits_run. cbn [append].
  apply dec_rendering_upper. exact Hb.
Qed.

End Digits.

(** What [readUID] returns, by the outcome of its two calls. *)
Lemma readUID_outcome (chip : device) (self : MFRC522) (t : trace) :
  (req_status (fst (readUID_request chip self t)) <> 0 /\
   readUID chip (Some self) t = (""%string, snd (readUID_request chip self t)))
  \/
  (req_status (fst (readUID_request chip self t)) = 0 /\
   anti_status (fst (readUID_anticoll chip self t)) <> 0 /\
   readUID chip (Some self) t = (""%string, snd (readUID_anticoll chip self t)))
  \/
  (req_status (fst (readUID_request chip self t)) = 0 /\
   anti_status (fst (readUID_anticoll chip self t)) = 0 /\
   Forall is_byte (anti_uid (fst (readUID_anticoll chip self t))) /\
   List.length (anti_uid (fst (readUID_anticoll chip self t))) = 4%nat /\
   readUID chip (Some self) t
   = (dec_rendering (anti_uid (fst (readUID_anticoll chip self t))),
      snd (readUID_anticoll chip self t))).
Proof.
  rewrite readUID_unfold.
  destruct (req_status (fst (readUID_request chip self t)) =? 0) eqn:Er;
    [apply Z.eqb_eq in Er | apply Z.eqb_neq in Er; left; auto].
  right. cbn [negb].
  destruct (anti_status (fst (readUID_anticoll chip self t)) =? 0) eqn:Ea;
    [apply Z.eqb_eq in Ea | apply Z.eqb_neq in Ea; left; auto].
  right.
  pose proof (readUID_anticoll_bytes chip self t) as Hb.
  split; [exact Er |]. split; [exact Ea |]. split; [exact Hb |].
  split; [unfold readUID_anticoll in *; apply anticoll_uid_length; exact Ea |].
  fold (readUID_string (anti_uid (fst (readUID_anticoll chip self t)))).
  rewrite (readUID_string_run _ Hb). reflexivity.
Qed.

(** X13. [readUID] returns the empty string exactly when the request or
    the anti-collision fails; and when the request fails the bus shows
    the request only: the anti-collision is not started. *)
Theorem readUID_empty_iff (chip : device) (self : MFRC522) (t : trace) :
  (fst (readUID chip (Some self) t) = ""%string <->
   req_status (fst (readUID_request chip self t)) <> 0 \/
   anti_status (fst (readUID_anticoll chip self t)) <> 0) /\
  (req_status (fst (readUID_request chip self t)) <> 0 ->
   snd (readUID chip (Some self) t) = snd (readUID_request chip self t)).
Proof.
  destruct (readUID_outcome chip self t)
    as [[Hr ->] | [(Hr & Ha & ->) | (Hr & Ha & Hb & Hl & ->)]]; cbn [fst snd].
  - split; [split; auto | reflexivity].
  - split; [split; auto | intros H; contradiction].
  - split; [| intros H; contradiction].
    split.
    + intros E. exfalso.
      destruct (dec_rendering_shape _ Hb) as [_ [Hlen _]].
      rewrite E, Hl in Hlen. cbn in Hlen. lia.
    + intros [H | H]; contradiction.
Qed.

(** X14. The string [readUID] returns holds decimal digits only, so no
    letter ever, and it is either empty or 8 to 12 characters long. *)
Theorem readUID_digits_only
  (chip : device) (_instance : option MFRC522) (t : trace) :
  let s := fst (readUID chip _instance t) in
  all_digits s = true /\
  (s = ""%string \/ (8 <= String.length s <= 12)%nat).
Proof.
  cbv zeta. destruct _instance as [self |]; [| cbn; auto].
  destruct (readUID_outcome chip self t)
    as [[Hr ->] | [(Hr & Ha & ->) | (Hr & Ha & Hb & Hl & ->)]]; cbn [fst snd];
    [cbn; auto | cbn; auto |].
  destruct (dec_rendering_shape _ Hb) as [Hd Hlen]. rewrite Hl in Hlen.
  split; [exact Hd | right; lia].
Qed.

(** X15. When both calls succeed, the string [readUID] returns is the
    hexadecimal rendering of the identifier exactly when each of its four
    bytes is at most 9. *)
Theorem readUID_hex_iff (chip : device) (self : MFRC522) (t : trace) :
  req_status (fst (readUID_request chip self t)) = 0 ->
  anti_status (fst (readUID_anticoll chip self t)) = 0 ->
  (fst (readUID chip (Some self) t)
   = hex_rendering (anti_uid (fst (readUID_anticoll chip self t)))
   <-> Forall (fun b => b <= 9) (anti_uid (fst (readUID_anticoll chip self t)))).
Proof.
  intros Hreq Hanti.
  destruct (readUID_outcome chip self t)
    as [[Hr _] | [(_ & Ha & _) | (_ & _ & Hb & _ & ->)]];
    [contradiction | contradiction |]. cbn [fst].
  split; [apply dec_is_hex_small | apply small_is_hex]; exact Hb.
Qed.

Lemma readUID_hex_iff_witness :
  fst (readUID chip_small_uid (Some mfrc) [])
  = hex_rendering (anti_uid (fst (readUID_anticoll chip_small_uid mfrc [])))
  <-> Forall (fun b => b <= 9)
        (anti_uid (fst (readUID_anticoll chip_small_uid mfrc []))).
Proof.
  apply (readUID_hex_iff chip_small_uid mfrc []); vm_compute; reflexivity.
Defined.

(** X16. The string does not determine the identifier: two different
    four-byte identifiers can give the same string, as [C8 00 1F 32] and
    [14 00 03 96] both give "200003150". *)
Theorem readUID_string_not_injective :
  ~ (forall u v : list Z,
        List.length u = 4%nat -> List.length v = 4%nat ->
        Forall is_byte u -> Forall is_byte v ->
        readUID_string u = readUID_string v -> u = v).
Proof.
  intros H.
  assert (E : [0xC8; 0x00; 0x1F; 0x32] = [0x14; 0x00; 0x03; 0x96]).
  { apply H; try reflexivity;
      repeat constructor; try discriminate. }
  discriminate E.
Qed.

(** ** Failure of an exchange *)

(** X17. [toCard] returns status 2 in exactly two situations: the wait
    loop used up its budget, and then nothing more is read; or the error
    register, read right after the loop, shows one of the bits 0x1B, and
    then nothing more is read either. *)
Theorem toCard_error_iff
  (chip : device) (self : MFRC522) (command : Z) (sendData : list Z) (t : trace) :
  let polled := toCard_polled chip self command sendData t in
  card_status (fst (toCard chip self command sendData t)) = 2 <->
  (fst (fst polled) = O /\
   snd (toCard chip self command sendData t) = snd polled)
  \/
  (fst (fst polled) <> O /\
   exists err : Z,
     is_byte err /\ Z.land err 0x1B <> 0 /\
     snd (toCard chip self command sendData t)
     = snd polled ++ reg_read self ErrorReg err).
Proof.
  cbv zeta.
  pose proof (completion_status_cases
                (snd (fst (toCard_polled chip self command sendData t)))
                (fst (toCard_masks command))) as Hcs.
  destruct (toCard_outcome chip self command sendData t)
    as [Hleft Hr Htr | err Hleft Herr Hbits Hr Htr
        | err Hleft Herr Hbits _ Hr Htr
        | err lvl ctl Hleft Herr Hbits _ _ _ Hs _ _ _ Htr].
  - rewrite Hr. split; [intros _; left; auto | reflexivity].
  - rewrite Hr. split; [intros _; right; eauto | reflexivity].
  - rewrite Hr. cbn [card_status]. split.
    + intros E. destruct Hcs as [E' | E']; rewrite E' in E; discriminate E.
    + intros [[H0 _] | (_ & err' & _ & Hb' & Htr')]; [contradiction |].
      exfalso. rewrite Htr in Htr'. apply app_inv_head in Htr'.
      injection Htr' as Heq. subst err'. contradiction.
  - rewrite Hs. split.
    + intros E. destruct Hcs as [E' | E']; rewrite E' in E; discriminate E.
    + intros [[H0 _] | (_ & err' & _ & _ & Htr')]; [contradiction |].
      exfalso. rewrite Htr in Htr'. apply app_inv_head in Htr'.
      apply (f_equal (@List.length i2c_event)) in Htr'.
      rewrite !length_app in Htr'. cbn in Htr'. lia.
Qed.
